(** * io_EDM/writer.py: the EDM scene exporter, embedded and verified.

    The Python module assembles materials, render nodes, a node table and a
    world bounding box from the host scene and hands them to the binary
    writer.  Every function of [writer.py] is translated below; what the
    module imports from elsewhere ([mathutils], [edm.types],
    [edm.mathtypes], [edm.basewriter]) is a field of the classes [PyFloat]
    and [Imports], or an event of the world. *)

From Stdlib Require Import ZArith String Ascii List Lia.
From stdpp Require Import base option gmap strings list fin_maps.

Open Scope string_scope.
Open Scope list_scope.
Open Scope Z_scope.

(** ** Python values *)

(** Python's [float].  The exporter only compares, negates and subtracts
    floats and converts integers to floats.  Its float literals [0.0],
    [1.0] and [1e38] are whole numbers and are written through
    [float_of_int] ([float(10**38) == 1e38] in Python). *)
Class PyFloat := {
  float : Type;
  float_lt : float -> float -> bool;       (* [a < b] *)
  float_neg : float -> float;              (* [-a] *)
  float_sub : float -> float -> float;     (* [a - b] *)
  float_of_int : Z -> float;               (* [float(n)] *)
}.

(** The order laws of floats that are numbers (no NaN). *)
Class PyFloatOrder (F : PyFloat) : Prop := {
  float_lt_irrefl : forall a : float, float_lt a a = false;
  float_lt_trans : forall a b c : float,
      float_lt a b = true -> float_lt b c = true -> float_lt a c = true;
  float_lt_total : forall a b : float,
      float_lt a b = false -> float_lt b a = false -> a = b;
}.

(** Exceptions the exporter can raise. *)
Inductive exn :=
| IndexError | KeyError | AttributeError | AssertionError
| UnboundLocalError | ValueError
| SystemError.   (* a dangling object reference: never raised *)

Inductive result (A : Type) :=
| Ok (a : A)
| Raise (e : exn).
Arguments Ok {A} a.
Arguments Raise {A} e.

#[global] Instance result_ret : MRet result := fun A a => Ok a.
#[global] Instance result_bind : MBind result := fun A B f m =>
  match m with
  | Ok a => f a
  | Raise e => Raise e
  end.

#[global] Instance result_fmap : FMap result := fun A B f m =>
  match m with
  | Ok a => Ok (f a)
  | Raise e => Raise e
  end.

(** [l[i]] for a non-negative [i]. *)
Definition py_index {A} (l : list A) (i : nat) : result A :=
  match l !! i with
  | Some a => Ok a
  | None => Raise IndexError
  end.

(** A comprehension [[f x for x in l]] whose body has effects. *)
Fixpoint mapM {m : Type -> Type} `{MBind m, MRet m} {A B}
    (f : A -> m B) (l : list A) : m (list B) :=
  match l with
  | [] => mret []
  | a :: l' => b ← f a; bs ← mapM f l'; mret (b :: bs)
  end.

(** A [for] loop over [l] that updates the loop state [s]. *)
Fixpoint foldM {m : Type -> Type} `{MBind m, MRet m} {A S}
    (f : S -> A -> m S) (l : list A) (s : S) : m S :=
  match l with
  | [] => mret s
  | a :: l' => s' ← f s a; foldM f l' s'
  end.

(** [enumerate(l)]. *)
Definition enumerate {A} (l : list A) : list (nat * A) :=
  zip (seq 0 (length l)) l.

(** ** Strings *)

(** [s.find(sub)]: the first index of [sub] in [s], or -1. *)
Definition py_find (s sub : string) : Z :=
  match String.index 0 sub s with
  | Some n => Z.of_nat n
  | None => -1
  end.

(** [s[:k]]: a negative bound counts from the end. *)
Definition py_slice_to (s : string) (k : Z) : string :=
  let len := Z.of_nat (String.length s) in
  let stop := if k <? 0 then Z.max (len + k) 0 else Z.min k len in
  String.substring 0 (Z.to_nat stop) s.

(** [s.rfind(c)] for a one-character [c]: the last index of [c], or -1. *)
Fixpoint rfind_from (c : ascii) (s : string) (i last : Z) : Z :=
  match s with
  | EmptyString => last
  | String a r => rfind_from c r (i + 1) (if Ascii.eqb a c then i else last)
  end.

Definition py_rfind (s : string) (c : ascii) : Z := rfind_from c s 0 (-1).

(** [s[k:]] for a non-negative [k]. *)
Definition py_slice_from (s : string) (k : Z) : string :=
  String.substring (Z.to_nat k) (String.length s) s.

(** [os.path.basename] (posixpath): [p[p.rfind('/')+1:]]. *)
Definition os_path_basename (p : string) : string :=
  py_slice_from p (py_rfind p "/" + 1).


(** ** The data model *)

Section HostTypes.
Context {F : PyFloat}.

(** A component of a vertex tuple: the flattener mixes floats with the
    integer literal [0]. *)
Inductive pynum :=
| PInt (z : Z)
| PFloat (x : float).

(** [mathutils.Vector], three components. *)
Record Vector := mkVector { vec_x : float; vec_y : float; vec_z : float }.

(** Iterating a vector, as [itertools.chain] does. *)
Definition vec_iter (v : Vector) : list float := [vec_x v; vec_y v; vec_z v].

(** [v[index]]. *)
Definition vec_index (v : Vector) (index : nat) : result float :=
  py_index (vec_iter v) index.

(** [Vector(l)] for a list of three floats. *)
Definition Vector_of_list (l : list float) : result Vector :=
  match l with
  | [a; b; c] => Ok (mkVector a b c)
  | _ => Raise ValueError
  end.

(** A texture slot of a source material; the slot holds an image texture,
    [tex_filepath] is [texture.image.filepath]. *)
Record TextureSlot := {
  tex_filepath : string;
  use_map_color_diffuse : bool;
  use_map_normal : bool;
  use_map_specular : bool;
}.

Record RaytraceMirror := {
  mirror_use : bool;
  reflect_factor : float;
  gloss_factor : float;
}.

(** A source material ([bpy.types.Material] with the add-on's [edm_*]
    properties; [edm_blending] is an enum whose identifiers are numerals,
    held here by its value, so that [int] of it is total). *)
Record BMaterial := {
  bmat_name : string;
  edm_blending : Z;
  edm_material : string;
  specular_hardness : Z;
  specular_intensity : float;
  diffuse_intensity : float;
  raytrace_mirror : RaytraceMirror;
  use_shadows : bool;
  use_cast_shadows : bool;
  use_cast_shadows_only : bool;
  texture_slots : list (option TextureSlot);
}.

(** The transient mesh of [to_mesh]. *)
Record MeshVertex := { co : Vector; normal : Vector }.
Record MeshTessFace := { face_vertices : list nat }.
Record MeshTextureFace := { uv : list (float * float) }.
Record Mesh := {
  mesh_vertices : list MeshVertex;
  tessfaces : list MeshTessFace;
  (* [tessface_uv_textures.active]: [None] when the mesh has no UV layer,
     else the layer's [data] *)
  tessface_uv_active : option (list MeshTextureFace);
}.

End HostTypes.

(** What [writer.py] imports and this repository's sources do not show:
    matrices of [mathutils], the host's [Mesh.transform], and the [edm]
    package's [Matrix()], [vector_to_edm], [Node()] and the [parent] a
    fresh [RenderNode()] starts with. *)
Class Imports {F : PyFloat} := {
  Matrix : Type;
  Matrix_new : Matrix;
  matrix_mul : Matrix -> Vector -> Vector;      (* [m * v] *)
  mesh_transform : Matrix -> Mesh -> Mesh;      (* [mesh.transform(m)] *)
  vector_to_edm : Vector -> Vector;
  Node : Type;
  Node_new : Node;
  RenderNode_parent : option Node;
}.

Section Writer.
Context {F : PyFloat} {I : Imports}.

(** A scene object.  [to_mesh] is given the [apply_modifiers] flag. *)
Record BObject := {
  ob_type : string;
  ob_name : string;
  material_slots : list (option BMaterial);   (* each slot's [material] *)
  matrix_world : Matrix;
  matrix_local : Matrix;
  bound_box : list Vector;
  to_mesh : bool -> Mesh;
}.

Record Texture := {
  tex_index : Z;
  tex_name : string;
  tex_matrix : Matrix;
}.

Record Shadows := { recieve : bool; cast : bool; cast_only : bool }.

(** [edm.types.Material] as [create_material] fills it; [mat_index] is
    unset until [write_file] numbers the material. *)
Record Material := {
  mat_blending : Z;
  mat_material_name : string;
  mat_name : string;
  mat_uniforms : gmap string float;
  mat_shadows : Shadows;
  mat_vertex_format : gmap string Z;
  mat_texture_coordinates_channels : list Z;
  mat_textures : list Texture;
  mat_index : option nat;
}.

Definition set_index (i : nat) (m : Material) : Material :=
  {| mat_blending := mat_blending m;
     mat_material_name := mat_material_name m;
     mat_name := mat_name m;
     mat_uniforms := mat_uniforms m;
     mat_shadows := mat_shadows m;
     mat_vertex_format := mat_vertex_format m;
     mat_texture_coordinates_channels := mat_texture_coordinates_channels m;
     mat_textures := mat_textures m;
     mat_index := Some i |}.

(** ** [create_texture] *)

Definition create_texture (source : TextureSlot) : result Texture :=
  (* Get the texture name stripped of ALL extensions *)
  let texName := os_path_basename (tex_filepath source) in
  let texName := py_slice_to texName (py_find texName ".") in
  (* Work out the channel for this texture *)
  index ← (if use_map_color_diffuse source then Ok 0
           else if use_map_normal source then Ok 1
           else if use_map_specular source then Ok 2
           else Raise UnboundLocalError);
  Ok {| tex_index := index; tex_name := texName; tex_matrix := Matrix_new |}.

(** ** [create_material] *)

(** [[x for x in slots if x is not None and x.use_map_color_diffuse]].
    On these types the comprehension cannot raise, so the debugger hook
    that [create_material] wraps around it never runs. *)
Definition diffuse_slots (slots : list (option TextureSlot)) : list TextureSlot :=
  omap (fun x => match x with
                 | Some s => if use_map_color_diffuse s then Some s else None
                 | None => None
                 end) slots.

Definition create_material (source : BMaterial) : result Material :=
  let uniforms : gmap string float :=
    <["reflectionValue" := float_of_int 0]>
    (<["diffuseValue" := diffuse_intensity source]>
    (<["specFactor" := specular_intensity source]>
    (<["specPower" := float_of_int (specular_hardness source)]> ∅))) in
  let uniforms :=
    if mirror_use (raytrace_mirror source) then
      <["reflectionBlurring" :=
          float_sub (float_of_int 1) (gloss_factor (raytrace_mirror source))]>
      (<["reflectionValue" := reflect_factor (raytrace_mirror source)]> uniforms)
    else uniforms in
  let shadows := {| recieve := use_shadows source;
                    cast := use_cast_shadows source;
                    cast_only := use_cast_shadows_only source |} in
  let vertex_format : gmap string Z :=
    <["tex0" := 2]> (<["normal" := 3]> (<["position" := 4]> ∅)) in
  let texture_coordinates_channels := [0] ++ replicate 11 (-1) in
  (* Find diffuse *)
  let diffuseTex := diffuse_slots (texture_slots source) in
  if negb (Nat.eqb (length diffuseTex) 1) then Raise AssertionError else
  slot ← py_index diffuseTex 0;
  tex ← create_texture slot;
  Ok {| mat_blending := edm_blending source;
        mat_material_name := edm_material source;
        mat_name := bmat_name source;
        mat_uniforms := uniforms;
        mat_shadows := shadows;
        mat_vertex_format := vertex_format;
        mat_texture_coordinates_channels := texture_coordinates_channels;
        mat_textures := [] ++ [tex];
        mat_index := None |}.

(** ** The geometry flattener (the loop of [create_rendernode]) *)

(** A vertex of the output: [tuple(chain(position, [0], normal, uv))]. *)
Definition make_vertex (position normal : Vector) (uv : list float) : list pynum :=
  (PFloat <$> vec_iter position) ++ [PInt 0] ++ (PFloat <$> vec_iter normal)
  ++ (PFloat <$> uv).

(** The inner loop [for i, vtxIndex in enumerate(face.vertices)]. *)
Definition emit_vertex (mesh : Mesh) (uvFace : MeshTextureFace)
    (newVertices : list (list pynum)) (iv : nat * nat) : result (list (list pynum)) :=
  let '(i, vtxIndex) := iv in
  v ← py_index (mesh_vertices mesh) vtxIndex;
  let position := vector_to_edm (co v) in
  let normal := vector_to_edm (normal v) in
  uvi ← py_index (uv uvFace) i;
  let uv := [fst uvi; float_neg (snd uvi)] in
  mret (newVertices ++ [make_vertex position normal uv]).

(** The body of [for face, uvFace in zip(mesh.tessfaces, uv_tex)]; the loop
    state is [(newVertices, newIndexValues)]. *)
Definition flatten_face (mesh : Mesh) (st : list (list pynum) * list nat)
    (fu : MeshTessFace * MeshTextureFace) : result (list (list pynum) * list nat) :=
  let '(newVertices, newIndexValues) := st in
  let '(face, uvFace) := fu in
  (* What are the new index values going to be? *)
  let newFaceIndex :=
    (fun x => (length newVertices + x)%nat) <$> seq 0 (length (face_vertices face)) in
  (* Build the new vertex data *)
  newVertices ← foldM (emit_vertex mesh uvFace) (enumerate (face_vertices face))
                      newVertices;
  (* We either have triangles or quads *)
  let triangles : list (list nat) :=
    if Nat.eqb (length (face_vertices face)) 3
    then [[0; 1; 2]]%nat
    else [[0; 1; 2]; [2; 3; 0]]%nat in
  (* Write each vertex of each triangle *)
  newIndexValues ←
    foldM (fun acc tri =>
             foldM (fun acc i => x ← py_index newFaceIndex i; mret (acc ++ [x]))
                   tri acc)
          triangles newIndexValues;
  mret (newVertices, newIndexValues).

Definition flatten (mesh : Mesh) (uv_tex : list MeshTextureFace)
  : result (list (list pynum) * list nat) :=
  foldM (flatten_face mesh) (zip (tessfaces mesh) uv_tex) ([], []).

(** ** The assembled graph *)

(** [write_file] overwrites two attributes of a render node in place with
    a value of another type: [rn.material] holds a Material object and
    then its index, [rn.parent] holds [None] or a parent and then an index
    into the node table.  The record is indexed by these two types. *)
Record RenderNode (Mat Par : Type) := {
  rn_name : string;
  rn_material : Mat;
  rn_parent : Par;
  vertexData : list (list pynum);
  indexData : list nat;
}.
Arguments rn_name {Mat Par} _.
Arguments rn_material {Mat Par} _.
Arguments rn_parent {Mat Par} _.
Arguments vertexData {Mat Par} _.
Arguments indexData {Mat Par} _.

(** A reference to a Material object. *)
Definition ref : Type := nat.

(** A render node as [create_rendernode] returns it, and as it is written. *)
Definition BuiltNode : Type := RenderNode ref (option Node).
Definition FinalNode : Type := RenderNode nat nat.

Record RootNode := {
  materials : list Material;
  boundingBoxMin : Vector;
  boundingBoxMax : Vector;
}.

Record EDMFile := {
  root : RootNode;
  nodes : list Node;
  renderNodes : list FinalNode;
}.

(** ** The world the exporter acts on *)

Inductive file_event :=
| FileOpen (filename : string)                  (* [BaseWriter(filename)] *)
| FileWrite (filename : string) (f : EDMFile)   (* [file.write(writer)] *)
| FileClose (filename : string).                (* [writer.close()] *)

Record world := {
  data_meshes : list nat;   (* [bpy.data.meshes]: the transient meshes alive *)
  mesh_serial : nat;        (* identifies the next mesh of [to_mesh] *)
  heap : list Material;     (* Material objects; a reference is a position *)
  files : list file_event;  (* what was done to the file system, in order *)
}.

(** Effects and exceptions: an exception keeps the effects made so far. *)
Definition M (A : Type) : Type := world -> world * result A.

#[global] Instance M_ret : MRet M := fun A a w => (w, Ok a).
#[global] Instance M_bind : MBind M := fun A B f m w =>
  match m w with
  | (w', Ok a) => f a w'
  | (w', Raise e) => (w', Raise e)
  end.

Definition lift {A} (r : result A) : M A := fun w => (w, r).

(** [source.to_mesh(...)]: a new mesh datablock in [bpy.data.meshes]. *)
Definition host_to_mesh (source : BObject) (apply_modifiers : bool) : M (nat * Mesh) :=
  fun w =>
    let id := mesh_serial w in
    ({| data_meshes := data_meshes w ++ [id]; mesh_serial := S id;
        heap := heap w; files := files w |},
     Ok (id, to_mesh source apply_modifiers)).

(** [bpy.data.meshes.remove(mesh)]. *)
Definition meshes_remove (id : nat) : M unit :=
  fun w =>
    ({| data_meshes := filter (fun x => x <> id) (data_meshes w);
        mesh_serial := mesh_serial w; heap := heap w; files := files w |},
     Ok tt).

(** A new Material object. *)
Definition alloc (mat : Material) : M ref :=
  fun w =>
    ({| data_meshes := data_meshes w; mesh_serial := mesh_serial w;
        heap := heap w ++ [mat]; files := files w |},
     Ok (length (heap w))).

Definition deref (r : ref) : M Material :=
  fun w => (w, match heap w !! r with
               | Some mat => Ok mat
               | None => Raise SystemError
               end).

(** [mat.index = i] on the object [r] refers to. *)
Definition assign_index (r : ref) (i : nat) : M unit :=
  fun w =>
    ({| data_meshes := data_meshes w; mesh_serial := mesh_serial w;
        heap := alter (set_index i) r (heap w); files := files w |},
     Ok tt).

Definition file_do (e : file_event) : M unit :=
  fun w =>
    ({| data_meshes := data_meshes w; mesh_serial := mesh_serial w;
        heap := heap w; files := files w ++ [e] |},
     Ok tt).

(** ** [create_rendernode] *)

Definition create_rendernode (source : BObject) (material : ref)
    (options : gmap string bool) : M BuiltNode :=
  (* Always remesh, because we will want to apply transformations *)
  '(mesh_id, mesh) ← host_to_mesh source (default false (options !! "apply_modifiers"));
  (* Apply the local transform *)
  let mesh := mesh_transform (matrix_local source) mesh in
  uv_tex ← lift (match tessface_uv_active mesh with
                 | Some data => Ok data
                 | None => Raise AttributeError
                 end);
  '(newVertices, newIndexValues) ← lift (flatten mesh uv_tex);
  let node := {| rn_name := ob_name source;
                 rn_material := material;
                 rn_parent := RenderNode_parent;
                 vertexData := newVertices;
                 indexData := newIndexValues |} in
  (* Cleanup *)
  _ ← meshes_remove mesh_id;
  mret node.

(** ** [calculate_world_bounds] *)

(** [min(l)] and [max(l)]: the first item is kept until a later one is
    strictly smaller (greater); an empty list raises. *)
Definition py_min (l : list float) : result float :=
  match l with
  | [] => Raise ValueError
  | x :: xs => Ok (fold_left (fun best y => if float_lt y best then y else best) xs x)
  end.

Definition py_max (l : list float) : result float :=
  match l with
  | [] => Raise ValueError
  | x :: xs => Ok (fold_left (fun best y => if float_lt best y then y else best) xs x)
  end.

Definition lit_1e38 : float := float_of_int (10 ^ 38).

(** The body of [for index in range(3)]. *)
Definition bounds_axis (points : list Vector) (st : list float * list float)
    (index : nat) : result (list float * list float) :=
  let '(mins, maxs) := st in
  coords ← mapM (fun point => vec_index point index) points;
  cur ← py_index mins index;
  lo ← py_min (coords ++ [cur]);
  let mins := <[index := lo]> mins in
  coords ← mapM (fun point => vec_index point index) points;
  cur ← py_index maxs index;
  hi ← py_max (coords ++ [cur]);
  let maxs := <[index := hi]> maxs in
  mret (mins, maxs).

(** The body of [for obj in bpy.context.scene.objects]. *)
Definition bounds_object (st : list float * list float) (obj : BObject)
  : result (list float * list float) :=
  if bool_decide (ob_type obj ∈ ["CAMERA"]) then mret st else
  let points := (fun x => matrix_mul (matrix_world obj) x) <$> bound_box obj in
  foldM (bounds_axis points) (seq 0 3) st.

Definition calculate_world_bounds (objects : list BObject) : result (Vector * Vector) :=
  let mins := [lit_1e38; lit_1e38; lit_1e38] in
  let maxs := [float_neg lit_1e38; float_neg lit_1e38; float_neg lit_1e38] in
  '(mins, maxs) ← foldM bounds_object objects (mins, maxs);
  vmin ← Vector_of_list mins;
  vmax ← Vector_of_list maxs;
  mret (vmin, vmax).

(** ** [write_file] *)

(** [m.name] of a slot's material, which can be [None]. *)
Definition material_name (m : option BMaterial) : result string :=
  match m with
  | Some m => Ok (bmat_name m)
  | None => Raise AttributeError
  end.

(** [d[k]]. *)
Definition py_getitem {V} (d : gmap string V) (k : string) : result V :=
  match d !! k with
  | Some v => Ok v
  | None => Raise KeyError
  end.

(** [all_Materials = [obj.material_slots[0].material for obj in all_MeshObj]] *)
Definition first_materials (all_MeshObj : list BObject)
  : result (list (option BMaterial)) :=
  mapM (fun obj => py_index (material_slots obj) 0) all_MeshObj.

(** [materialMap = {m.name: create_material(m) for m in all_Materials}]:
    every item creates a Material object, a later item of the same name
    replaces the earlier one in the map.  (Key and value raise the same
    exception on [None], whichever Python evaluates first.) *)
Definition build_materialMap (all_Materials : list (option BMaterial))
  : M (gmap string ref) :=
  foldM (fun (materialMap : gmap string ref) m =>
           name ← lift (material_name m);
           mat ← lift (match m with
                       | Some m => create_material m
                       | None => Raise AttributeError
                       end);
           r ← alloc mat;
           mret (<[name := r]> materialMap))
        all_Materials ∅.

(** The loop [for i, bMat in enumerate(all_Materials)]. *)
Definition number_materials (materialMap : gmap string ref)
    (all_Materials : list (option BMaterial)) : M (list ref) :=
  foldM (fun (materials : list ref) ib =>
           let '(i, bMat) := ib in
           name ← lift (material_name bMat);
           mat ← lift (py_getitem materialMap name);
           _ ← assign_index mat i;
           mret (materials ++ [mat]))
        (enumerate all_Materials) [].

(** The loop that builds each RenderNode object. *)
Definition build_renderNodes (materialMap : gmap string ref)
    (options : gmap string bool) (all_MeshObj : list BObject) : M (list BuiltNode) :=
  foldM (fun (renderNodes : list BuiltNode) obj =>
           slot ← lift (py_index (material_slots obj) 0);
           name ← lift (material_name slot);
           material ← lift (py_getitem materialMap name);
           node ← create_rendernode obj material options;
           mret (renderNodes ++ [node]))
        all_MeshObj [].

(** [rn.parent = i] and [rn.material = i]. *)
Definition set_parent {Mat Par} (i : nat) (rn : RenderNode Mat Par) : RenderNode Mat nat :=
  {| rn_name := rn_name rn; rn_material := rn_material rn; rn_parent := i;
     vertexData := vertexData rn; indexData := indexData rn |}.

Definition set_material {Mat Par} (i : nat) (rn : RenderNode Mat Par) : RenderNode nat Par :=
  {| rn_name := rn_name rn; rn_material := i; rn_parent := rn_parent rn;
     vertexData := vertexData rn; indexData := indexData rn |}.

(** [rn.material.index]. *)
Definition material_index {Par} (rn : RenderNode ref Par) : M nat :=
  mat ← deref (rn_material rn);
  lift (match mat_index mat with
        | Some i => Ok i
        | None => Raise AttributeError
        end).

(** The body of [for rn in renderNodes]; the loop state is the node list
    and the render nodes already updated. *)
Definition resolve_node (st : list Node * list FinalNode) (rn : BuiltNode)
  : M (list Node * list FinalNode) :=
  let '(nodes, done) := st in
  let '(nodes, rn) :=
    match rn_parent rn with
    | None => (nodes, set_parent 0 rn)
    | Some p =>
        let nodes := nodes ++ [p] in
        (nodes, set_parent (length nodes - 1) rn)
    end in
  i ← material_index rn;
  mret (nodes, done ++ [set_material i rn]).

(** Build the nodelist from the renderNode parents. *)
Definition build_nodes (renderNodes : list BuiltNode)
  : M (list Node * list FinalNode) :=
  foldM resolve_node renderNodes ([Node_new], []).

Definition write_file (scene : list BObject) (filename : string)
    (options : gmap string bool) : M unit :=
  (* Only allow meshes for now *)
  let all_MeshObj := filter (fun x => ob_type x = "MESH") scene in
  all_Materials ← lift (first_materials all_MeshObj);
  materialMap ← build_materialMap all_Materials;
  materials ← number_materials materialMap all_Materials;
  (* Now, build each RenderNode object *)
  renderNodes ← build_renderNodes materialMap options all_MeshObj;
  (* Build the nodelist from the renderNode parents *)
  '(nodes, renderNodes) ← build_nodes renderNodes;
  (* Let's build the root node *)
  '(bboxmin, bboxmax) ← lift (calculate_world_bounds scene);
  materials ← mapM deref materials;
  let root := {| materials := materials;
                 boundingBoxMin := vector_to_edm bboxmin;
                 boundingBoxMax := vector_to_edm bboxmax |} in
  (* And finally the wrapper *)
  let file := {| root := root; nodes := nodes; renderNodes := renderNodes |} in
  _ ← file_do (FileOpen filename);
  _ ← file_do (FileWrite filename file);
  file_do (FileClose filename).

End Writer.

Arguments rn_name {F Mat Par} _.
Arguments rn_material {F Mat Par} _.
Arguments rn_parent {F Mat Par} _.
Arguments vertexData {F Mat Par} _.
Arguments indexData {F Mat Par} _.

(** ** Notions the statements use *)

Section WriterSpecs.
Context {F : PyFloat} {I : Imports}.

(** The world [w] differs from [w0] in Material objects at most: same
    files, same meshes. *)
Definition same_outside (w0 w : world) : Prop :=
  files w = files w0 /\ data_meshes w = data_meshes w0
  /\ mesh_serial w = mesh_serial w0.

(** A face the flattener can process: a triangle or at least a quad, its
    vertex indices within the mesh, a UV entry for each of its corners. *)
Definition face_ok (mesh : Mesh) (fu : MeshTessFace * MeshTextureFace) : Prop :=
  (length (face_vertices fu.1) = 3 \/ 4 <= length (face_vertices fu.1))%nat
  /\ Forall (fun vtxIndex => (vtxIndex < length (mesh_vertices mesh))%nat)
            (face_vertices fu.1)
  /\ (length (face_vertices fu.1) <= length (uv fu.2))%nat.

(** [vtx] is the vertex of some corner [i] of [face]: position, the
    integer 0, normal, U and the negated V of the corner's UV entry. *)
Definition corner_vertex (mesh : Mesh) (face : MeshTessFace)
    (uvFace : MeshTextureFace) (vtx : list pynum) : Prop :=
  exists (i vtxIndex : nat) (v : MeshVertex) (tu tv : float),
    face_vertices face !! i = Some vtxIndex
    /\ mesh_vertices mesh !! vtxIndex = Some v
    /\ uv uvFace !! i = Some (tu, tv)
    /\ vtx = [PFloat (vec_x (vector_to_edm (co v)));
              PFloat (vec_y (vector_to_edm (co v)));
              PFloat (vec_z (vector_to_edm (co v)));
              PInt 0;
              PFloat (vec_x (vector_to_edm (normal v)));
              PFloat (vec_y (vector_to_edm (normal v)));
              PFloat (vec_z (vector_to_edm (normal v)));
              PFloat tu;
              PFloat (float_neg tv)].

(** The indices of a face: its triangles, local indices offset by [n]. *)
Definition face_indices (n len : nat) : list nat :=
  if Nat.eqb len 3 then [n; n + 1; n + 2]%nat
  else [n; n + 1; n + 2; n + 2; n + 3; n]%nat.

(** The Material object a render node refers to exists and has been
    numbered, so that [rn.material.index] can be read. *)
Definition material_numbered (w : world) (rn : BuiltNode) : Prop :=
  exists mat i, heap w !! rn_material rn = Some mat /\ mat_index mat = Some i.

(** The component [index] of a vector, for [index] below 3. *)
Definition axis (index : nat) (v : Vector) : float :=
  match index with
  | 0%nat => vec_x v
  | 1%nat => vec_y v
  | _ => vec_z v
  end.

(** The minimum and the maximum of a list of floats. *)
Definition is_least (m : float) (l : list float) : Prop :=
  m ∈ l /\ forall x, x ∈ l -> float_lt x m = false.

Definition is_greatest (m : float) (l : list float) : Prop :=
  m ∈ l /\ forall x, x ∈ l -> float_lt m x = false.

(** The bounding-box corners of an object, in world space, and those of
    all the objects of a scene that are not cameras. *)
Definition world_corners (obj : BObject) : list Vector :=
  (fun x => matrix_mul (matrix_world obj) x) <$> bound_box obj.

Definition scene_corners (objects : list BObject) : list Vector :=
  concat (world_corners <$> filter (fun obj => ob_type obj <> "CAMERA") objects).

(** No coordinate of [pts] lies beyond the seeds: none is above 1e38,
    none is below -1e38. *)
Definition within_seeds (pts : list Vector) : Prop :=
  Forall (fun pt => Forall (fun c => float_lt lit_1e38 c = false
                                     /\ float_lt c (float_neg lit_1e38) = false)
                           (vec_iter pt)) pts.

(** The state of the loop of [calculate_world_bounds] once the corners
    [pts] have been seen. *)
Definition bounds_inv (pts : list Vector) (st : list float * list float) : Prop :=
  exists a b c a' b' c',
    st = ([a; b; c], [a'; b'; c'])
    /\ is_least a (lit_1e38 :: (vec_x <$> pts))
    /\ is_least b (lit_1e38 :: (vec_y <$> pts))
    /\ is_least c (lit_1e38 :: (vec_z <$> pts))
    /\ is_greatest a' (float_neg lit_1e38 :: (vec_x <$> pts))
    /\ is_greatest b' (float_neg lit_1e38 :: (vec_y <$> pts))
    /\ is_greatest c' (float_neg lit_1e38 :: (vec_z <$> pts)).

(** The files handed to the binary writer. *)
Definition written (w : world) : list EDMFile :=
  omap (fun e => match e with
                 | FileWrite _ f => Some f
                 | _ => None
                 end) (files w).

(** Every name of the material map refers to a Material object of that
    name. *)
Definition names_resolve (materialMap : gmap string ref) (w : world) : Prop :=
  forall nm r, materialMap !! nm = Some r ->
    exists mat, heap w !! r = Some mat /\ mat_name mat = nm.

(** Every Material object of the table [refs] carries as its index a
    position at which the table holds this very object. *)
Definition table_numbered (refs : list ref) (w : world) : Prop :=
  forall r, r ∈ refs ->
    exists mat k, heap w !! r = Some mat /\ mat_index mat = Some k
                  /\ refs !! k = Some r.

(** The table entry of a slot's material: the object its name maps to. *)
Definition entry_of (materialMap : gmap string ref) (m : option BMaterial)
    (r : ref) : Prop :=
  exists src, m = Some src /\ materialMap !! bmat_name src = Some r.

(** What [create_rendernode] makes of a mesh object, given the map. *)
Definition built_from (materialMap : gmap string ref)
    (options : gmap string bool) (obj : BObject) (rn : BuiltNode) : Prop :=
  let mesh := mesh_transform (matrix_local obj)
                (to_mesh obj (default false (options !! "apply_modifiers"))) in
  exists src uv_tex,
    material_slots obj !! 0%nat = Some (Some src)
    /\ materialMap !! bmat_name src = Some (rn_material rn)
    /\ rn_name rn = ob_name obj
    /\ rn_parent rn = RenderNode_parent
    /\ tessface_uv_active mesh = Some uv_tex
    /\ flatten mesh uv_tex = Ok (vertexData rn, indexData rn).

(** What the node loop makes of a render node: name and buffers are kept,
    the material becomes the index its Material object carries. *)
Definition resolved_from (w : world) (rn : BuiltNode) (rn' : FinalNode) : Prop :=
  rn_name rn' = rn_name rn
  /\ vertexData rn' = vertexData rn
  /\ indexData rn' = indexData rn
  /\ exists mat, heap w !! rn_material rn = Some mat
                 /\ mat_index mat = Some (rn_material rn').




(** Among the first materials [ms], the last one named [nm] is [src], at
    position [j]. *)
Definition last_named (ms : list (option BMaterial)) (nm : string) (j : nat)
    (src : BMaterial) : Prop :=
  ms !! j = Some (Some src) /\ bmat_name src = nm
  /\ forall j' src', (j < j')%nat -> ms !! j' = Some (Some src') ->
       bmat_name src' <> nm.

(** The same of mesh objects: the last of [objs] whose first material is
    named [nm] is the one at position [j], and this material is [src]. *)
Definition last_use (objs : list BObject) (nm : string) (j : nat)
    (src : BMaterial) : Prop :=
  (exists obj, objs !! j = Some obj
               /\ material_slots obj !! 0%nat = Some (Some src))
  /\ bmat_name src = nm
  /\ forall j' obj' src', (j < j')%nat -> objs !! j' = Some obj' ->
       material_slots obj' !! 0%nat = Some (Some src') -> bmat_name src' <> nm.

(** The character [c] occurs in the string [s]. *)
Definition has_char (c : ascii) (s : string) : Prop :=
  In c (list_ascii_of_string s).

(** The corners of a face, and the triangles the flattener makes of it:
    one of a 3-vertex face, two of any other face. *)
Definition corners_of (fu : MeshTessFace * MeshTextureFace) : nat :=
  length (face_vertices fu.1).

Definition triangles_of (fu : MeshTessFace * MeshTextureFace) : nat :=
  if Nat.eqb (length (face_vertices fu.1)) 3 then 1%nat else 2%nat.

End WriterSpecs.

(** ** A concrete host

    Floats that are whole numbers, computed exactly; a matrix is a
    translation; [vector_to_edm] swaps the axes the way the EDM package
    does.  The examples and counterexamples below run on this host. *)

#[global] Instance Zfloat : PyFloat := {|
  float := Z;
  float_lt := Z.ltb;
  float_neg := Z.opp;
  float_sub := Z.sub;
  float_of_int := fun z => z;
|}.

Definition translate (m v : Vector) : Vector :=
  mkVector (vec_x v + vec_x m) (vec_y v + vec_y m) (vec_z v + vec_z m).

#[global] Instance Zhost : Imports := {|
  Matrix := Vector;
  Matrix_new := mkVector 0 0 0;
  matrix_mul := translate;
  mesh_transform := fun m mesh =>
    {| mesh_vertices :=
         (fun v => {| co := translate m (co v); normal := normal v |})
           <$> mesh_vertices mesh;
       tessfaces := tessfaces mesh;
       tessface_uv_active := tessface_uv_active mesh |};
  vector_to_edm := fun v => mkVector (vec_x v) (vec_z v) (- vec_y v);
  Node := string;
  Node_new := "";
  RenderNode_parent := None;
|}.

Definition world0 : world :=
  {| data_meshes := []; mesh_serial := 0; heap := []; files := [] |}.

Definition slot_of (path : string) (diffuse : bool) : TextureSlot :=
  {| tex_filepath := path; use_map_color_diffuse := diffuse;
     use_map_normal := false; use_map_specular := false |}.

Definition bmat_of (name : string) (mirror : bool)
    (slots : list (option TextureSlot)) : BMaterial :=
  {| bmat_name := name; edm_blending := 1; edm_material := "def_material";
     specular_hardness := 50; specular_intensity := 1; diffuse_intensity := 2;
     raytrace_mirror := {| mirror_use := mirror; reflect_factor := 3;
                           gloss_factor := 4 |};
     use_shadows := true; use_cast_shadows := true;
     use_cast_shadows_only := false;
     texture_slots := slots |}.

(** A unit square in the plane [z = 0], as one quad or as two triangles. *)
Definition square_vertices : list MeshVertex :=
  (fun c => {| co := c; normal := mkVector 0 0 1 |})
    <$> [mkVector 0 0 0; mkVector 1 0 0; mkVector 1 1 0; mkVector 0 1 0].

Definition square_uv : MeshTextureFace :=
  {| uv := [(0, 0); (1, 0); (1, 1); (0, 1)] |}.

Definition quad_mesh (uv_layer : bool) : Mesh :=
  {| mesh_vertices := square_vertices;
     tessfaces := [{| face_vertices := [0; 1; 2; 3]%nat |}];
     tessface_uv_active := if uv_layer then Some [square_uv] else None |}.

Definition tris_mesh : Mesh :=
  {| mesh_vertices := square_vertices;
     tessfaces := [{| face_vertices := [0; 1; 2]%nat |};
                   {| face_vertices := [2; 3; 0]%nat |}];
     tessface_uv_active := Some [square_uv; square_uv] |}.

Definition corners (lo hi : Z) : list Vector :=
  [mkVector lo lo lo; mkVector lo lo hi; mkVector lo hi hi; mkVector lo hi lo;
   mkVector hi lo lo; mkVector hi lo hi; mkVector hi hi hi; mkVector hi hi lo].

Definition object_of (type name : string) (slots : list (option BMaterial))
    (at_ : Vector) (box : list Vector) (mesh : Mesh) : BObject :=
  {| ob_type := type; ob_name := name; material_slots := slots;
     matrix_world := at_; matrix_local := at_; bound_box := box;
     to_mesh := fun _ => mesh |}.

Definition wood : BMaterial :=
  bmat_of "Wood" false [None; Some (slot_of "//textures/wood.dds.png" true)].

(** Two mesh objects that share the material [wood], and a camera. *)
Definition shared_scene : list BObject :=
  [object_of "MESH" "Cube" [Some wood] (mkVector 0 0 0) (corners (-1) 1) (quad_mesh true);
   object_of "CAMERA" "Camera" [] (mkVector 9 9 9) (corners 0 0) (quad_mesh true);
   object_of "MESH" "Cube.001" [Some wood] (mkVector 5 0 0) (corners (-1) 1) tris_mesh].

(** Sample inputs for the statements below. *)

Definition dotless_slot : TextureSlot := slot_of "//textures/wood" true.

Definition no_diffuse : BMaterial := bmat_of "Bare" false [None; Some (slot_of "n.png" false)].
Definition two_diffuse : BMaterial :=
  bmat_of "Twice" false [Some (slot_of "a.png" true); Some (slot_of "b.png" true)].
Definition mirror : BMaterial := bmat_of "Mirror" true [Some (slot_of "m.png" true)].

(** A mesh object without material slots, after a well-formed one. *)
Definition slotless_object : BObject :=
  object_of "MESH" "Bare" [] (mkVector 0 0 0) (corners (-1) 1) (quad_mesh true).

Definition slotless_scene : list BObject :=
  [object_of "MESH" "Cube" [Some wood] (mkVector 0 0 0) (corners (-1) 1) (quad_mesh true);
   slotless_object].

Definition two_diffuse_object : BObject :=
  object_of "MESH" "Cube.001" [Some two_diffuse] (mkVector 0 0 0) (corners (-1) 1)
            (quad_mesh true).

Definition bad_material_scene : list BObject :=
  [object_of "MESH" "Cube" [Some wood] (mkVector 0 0 0) (corners (-1) 1) (quad_mesh true);
   two_diffuse_object].

(** A mesh object whose mesh has no active UV layer. *)
Definition uvless_object : BObject :=
  object_of "MESH" "Plane" [Some wood] (mkVector 0 0 0) (corners (-1) 1) (quad_mesh false).

Definition cube_object : BObject :=
  object_of "MESH" "Cube" [Some wood] (mkVector 0 0 0) (corners (-1) 1) (quad_mesh true).

(** A single object, beside a camera, all of whose corners lie beyond 1e38. *)
Definition far_object : BObject :=
  object_of "MESH" "Far" [Some wood] (mkVector 0 0 0)
            (corners (2 * 10 ^ 38) (3 * 10 ^ 38)) (quad_mesh true).

Definition far_scene : list BObject :=
  [object_of "CAMERA" "Camera" [] (mkVector 9 9 9) (corners 0 0) (quad_mesh true);
   far_object].

Definition near_object : BObject :=
  object_of "MESH" "Cube" [Some wood] (mkVector 5 0 0) (corners (-1) 1) (quad_mesh true).

Definition near_scene : list BObject :=
  [object_of "CAMERA" "Camera" [] (mkVector 9 9 9) (corners 0 0) (quad_mesh true);
   near_object].

(** Render nodes as a [RenderNode()] with parents would give them, and a
    world whose only Material object has been numbered. *)
Definition parented_nodes : list BuiltNode :=
  [ {| rn_name := "Wheel"; rn_material := 0%nat; rn_parent := Some "Axle";
       vertexData := []; indexData := [] |};
    {| rn_name := "Body"; rn_material := 0%nat; rn_parent := None;
       vertexData := []; indexData := [] |};
    {| rn_name := "Door"; rn_material := 0%nat; rn_parent := Some "Hinge";
       vertexData := []; indexData := [] |} ].

Definition numbered_world : world :=
  match create_material wood with
  | Ok mat => {| data_meshes := []; mesh_serial := 0;
                 heap := [set_index 0 mat]; files := [] |}
  | Raise _ => world0
  end.


Definition leaky_scene : list BObject := [cube_object; uvless_object].

Definition exported_world : world :=
  (write_file shared_scene "out.edm" ∅ world0).1.

Definition leaked_world : world :=
  (write_file leaky_scene "out.edm" ∅ world0).1.

Definition dotted_slot : TextureSlot := slot_of "//textures/wood.dds.png" true.

Definition cube_node : BuiltNode :=
  {| rn_name := "Cube"; rn_material := 0%nat; rn_parent := None;
     vertexData :=
       [[PFloat 0; PFloat 0; PFloat 0; PInt 0;
         PFloat 0; PFloat 1; PFloat 0; PFloat 0; PFloat 0];
        [PFloat 1; PFloat 0; PFloat 0; PInt 0;
         PFloat 0; PFloat 1; PFloat 0; PFloat 1; PFloat 0];
        [PFloat 1; PFloat 0; PFloat (-1); PInt 0;
         PFloat 0; PFloat 1; PFloat 0; PFloat 1; PFloat (-1)];
        [PFloat 0; PFloat 0; PFloat (-1); PInt 0;
         PFloat 0; PFloat 1; PFloat 0; PFloat 0; PFloat (-1)]];
     indexData := [0; 1; 2; 2; 3; 0]%nat |}.

Definition cube_world : world :=
  {| data_meshes := []; mesh_serial := 1; heap := []; files := [] |}.

Definition pentagon_face : MeshTessFace := {| face_vertices := [0; 1; 2; 3; 0]%nat |}.
Definition edge_face : MeshTessFace := {| face_vertices := [0; 1]%nat |}.
Definition pentagon_uv : MeshTextureFace :=
  {| uv := [(0, 0); (1, 0); (1, 1); (0, 1); (0, 0)] |}.

(** * Properties *)

Section WriterFacts.
Context {F : PyFloat} {I : Imports}.

Ltac unfold_monad :=
  unfold mbind, mret, result_bind, result_ret, M_bind, M_ret, lift in *.

Lemma bind_Ok {A B} (a : A) (f : A -> result B) : (Ok a ≫= f) = f a.
Proof. reflexivity. Qed.


(** ** Strings *)

Example basename_keeps_extensions :
  os_path_basename "//textures/wood.dds.png" = "wood.dds.png".
Proof. reflexivity. Qed.

Lemma substring_0_min (s : string) (n : nat) :
  String.substring 0 (Nat.min n (String.length s)) s = String.substring 0 n s.
Proof.
  revert n; induction s as [|c s IH]; intros [|n]; simpl; auto.
  now rewrite IH.
Qed.

Lemma py_slice_to_nonneg (s : string) (n : nat) :
  py_slice_to s (Z.of_nat n) = String.substring 0 n s.
Proof.
  unfold py_slice_to.
  destruct (Z.ltb_spec (Z.of_nat n) 0) as [Hlt|_]; [lia|].
  rewrite <- Nat2Z.inj_min, Nat2Z.id. apply substring_0_min.
Qed.


(** ** Texture names *)

Lemma py_slice_to_minus_one (s : string) :
  py_slice_to s (-1) = String.substring 0 (String.length s - 1) s.
Proof.
  unfold py_slice_to. cbv zeta.
  destruct (Z.ltb_spec (-1) 0) as [_|Hge]; [|lia]. f_equal. lia.
Qed.

(** With a dot in the base name, the name is what precedes the first dot. *)
Lemma create_texture_name_dotted (source : TextureSlot) (n : nat) :
  use_map_color_diffuse source = true ->
  String.index 0 "." (os_path_basename (tex_filepath source)) = Some n ->
  tex_name <$> create_texture source
  = Ok (String.substring 0 n (os_path_basename (tex_filepath source))).
Proof.
  intros Hd Hi. unfold create_texture, py_find. rewrite Hd, Hi.
  unfold_monad. simpl. now rewrite py_slice_to_nonneg.
Qed.

(** Without a dot, [find] answers -1 and the slice drops the last
    character of the base name. *)
Lemma create_texture_name_dotless (source : TextureSlot) :
  use_map_color_diffuse source = true ->
  String.index 0 "." (os_path_basename (tex_filepath source)) = None ->
  tex_name <$> create_texture source
  = Ok (String.substring 0
          (String.length (os_path_basename (tex_filepath source)) - 1)
          (os_path_basename (tex_filepath source))).
Proof.
  intros Hd Hi. unfold create_texture, py_find. rewrite Hd, Hi.
  unfold_monad. simpl. now rewrite py_slice_to_minus_one.
Qed.

(** ** Loops that raise *)

Lemma py_index_raises {A} (l : list A) (i : nat) (e : exn) :
  py_index l i = Raise e -> e = IndexError.
Proof. unfold py_index. destruct (l !! i); congruence. Qed.

(** A loop in [M] stops with an exception at an item whose body always
    raises; [P] is any property of the world that the bodies keep. *)
Lemma foldM_raises {A S} (f : S -> A -> M S) (P : world -> Prop)
    (l : list A) (a : A) :
  a ∈ l ->
  (forall s w, P w -> exists w' e, f s a w = (w', Raise e) /\ P w') ->
  (forall s x w, P w -> P (f s x w).1) ->
  forall s w, P w -> exists w' e, foldM f l s w = (w', Raise e) /\ P w'.
Proof.
  intros Hin Hbad Hkeep. induction l as [|x l IH]; intros s w HP.
  - inversion Hin.
  - simpl. unfold_monad.
    apply elem_of_cons in Hin as [->|Hin].
    + destruct (Hbad s w HP) as (w' & e & -> & HP'). eauto.
    + specialize (Hkeep s x w HP).
      destruct (f s x w) as [w1 [s1|e]]; simpl in Hkeep; eauto.
Qed.

(** ** Objects without material slots *)

Lemma first_materials_slotless (objs : list BObject) :
  Exists (fun obj => material_slots obj = []) objs ->
  first_materials objs = Raise IndexError.
Proof.
  unfold first_materials.
  induction 1 as [obj objs Hnil|obj objs _ IH]; simpl; unfold_monad.
  - now rewrite Hnil.
  - destruct (py_index (material_slots obj) 0) eqn:E.
    + now rewrite IH.
    + now rewrite (py_index_raises _ _ _ E).
Qed.

Lemma first_materials_elem (objs : list BObject) (ms : list (option BMaterial))
    (obj : BObject) (m : option BMaterial) :
  first_materials objs = Ok ms ->
  obj ∈ objs -> material_slots obj !! 0%nat = Some m -> m ∈ ms.
Proof.
  unfold first_materials. revert ms.
  induction objs as [|o objs IH]; intros ms Hok Hin Hm; [inversion Hin|].
  simpl in Hok. unfold_monad.
  destruct (py_index (material_slots o) 0) as [m0|] eqn:E0; [|discriminate].
  destruct (mapM _ objs) as [ms'|]; [|discriminate].
  injection Hok as <-.
  apply elem_of_cons in Hin as [->|Hin].
  - unfold py_index in E0. rewrite Hm in E0. injection E0 as <-. left.
  - right. eauto.
Qed.

(** ** The diffuse texture of a material *)

Lemma create_material_rejects (source : BMaterial) :
  length (diffuse_slots (texture_slots source)) <> 1%nat ->
  create_material source = Raise AssertionError.
Proof.
  intros Hn. unfold create_material.
  destruct (Nat.eqb_spec (length (diffuse_slots (texture_slots source))) 1);
    [contradiction|reflexivity].
Qed.

Lemma build_materialMap_rejects (ms : list (option BMaterial))
    (source : BMaterial) (w : world) :
  Some source ∈ ms ->
  length (diffuse_slots (texture_slots source)) <> 1%nat ->
  exists w' e, build_materialMap ms w = (w', Raise e) /\ same_outside w w'.
Proof.
  intros Hin Hn. unfold build_materialMap.
  eapply (foldM_raises _ (same_outside w)); eauto.
  - intros s w1 HP. exists w1, AssertionError. split; [|assumption].
    unfold_monad. simpl. now rewrite (create_material_rejects _ Hn).
  - intros s x w1 HP. unfold_monad.
    destruct (material_name x); simpl; [|assumption].
    destruct x as [m|]; simpl; [|assumption].
    destruct (create_material m); simpl; assumption.
  - repeat split.
Qed.

(** C5.  A source material with no texture slot, or with two or more,
    whose diffuse-use flag is set makes [create_material] raise its
    assertion error; and [write_file] on a scene with a mesh object whose
    first slot holds such a material raises with the files (and the mesh
    data) as they were: nothing has been opened or written. *)
Theorem diffuse_count_rejected_before_output (source : BMaterial) :
  (length (diffuse_slots (texture_slots source)) = 0%nat
   \/ (2 <= length (diffuse_slots (texture_slots source)))%nat) ->
  create_material source = Raise AssertionError
  /\ forall (scene : list BObject) (obj : BObject) (filename : string)
        (options : gmap string bool) (w : world),
      obj ∈ scene -> ob_type obj = "MESH" ->
      material_slots obj !! 0%nat = Some (Some source) ->
      exists w' e, write_file scene filename options w = (w', Raise e)
                   /\ files w' = files w /\ data_meshes w' = data_meshes w.
Proof.
  intros Hcount.
  assert (Hn : length (diffuse_slots (texture_slots source)) <> 1%nat) by lia.
  split; [now apply create_material_rejects|].
  intros scene obj filename options w Hin Hty Hslot.
  unfold write_file. unfold_monad.
  destruct (first_materials _) as [ms|e] eqn:Hms.
  - assert (Hm : Some source ∈ ms).
    { eapply first_materials_elem; eauto. apply list_elem_of_filter; auto. }
    destruct (build_materialMap_rejects ms source w Hm Hn)
      as (w' & e & -> & Hf & Hd & _).
    exists w', e. auto.
  - exists w, e. auto.
Qed.

(** C10.  A mesh object with an empty material-slot list makes
    [write_file] raise [IndexError] at [material_slots[0]], in the first
    comprehension: the world is exactly as before, no file was opened. *)
Theorem slotless_mesh_object_IndexError (scene : list BObject) (obj : BObject)
    (filename : string) (options : gmap string bool) (w : world) :
  obj ∈ scene -> ob_type obj = "MESH" -> material_slots obj = [] ->
  write_file scene filename options w = (w, Raise IndexError).
Proof.
  intros Hin Hty Hnil. unfold write_file. unfold_monad.
  rewrite first_materials_slotless; [reflexivity|].
  apply Exists_exists. exists obj. split; [|assumption].
  apply list_elem_of_filter. auto.
Qed.

(** ** The uniforms of a material *)

(** C6.  The uniforms of a built Material are exactly [specPower],
    [specFactor], [diffuseValue] and [reflectionValue], the last being 0.0,
    when the mirror is not in use; with the mirror in use,
    [reflectionValue] is the reflect factor and one more key,
    [reflectionBlurring], holds 1.0 minus the gloss factor.  The
    texture-coordinate channels are 0 followed by eleven times -1. *)
Theorem create_material_uniforms (source : BMaterial) (mat : Material) :
  create_material source = Ok mat ->
  mat_uniforms mat !! "specPower" = Some (float_of_int (specular_hardness source))
  /\ mat_uniforms mat !! "specFactor" = Some (specular_intensity source)
  /\ mat_uniforms mat !! "diffuseValue" = Some (diffuse_intensity source)
  /\ (mirror_use (raytrace_mirror source) = false ->
      dom (mat_uniforms mat)
      = ({[ "specPower"; "specFactor"; "diffuseValue"; "reflectionValue" ]}
         : gset string)
      /\ mat_uniforms mat !! "reflectionValue" = Some (float_of_int 0))
  /\ (mirror_use (raytrace_mirror source) = true ->
      dom (mat_uniforms mat)
      = ({[ "specPower"; "specFactor"; "diffuseValue"; "reflectionValue";
            "reflectionBlurring" ]} : gset string)
      /\ mat_uniforms mat !! "reflectionValue"
         = Some (reflect_factor (raytrace_mirror source))
      /\ mat_uniforms mat !! "reflectionBlurring"
         = Some (float_sub (float_of_int 1) (gloss_factor (raytrace_mirror source))))
  /\ mat_texture_coordinates_channels mat
     = [0; -1; -1; -1; -1; -1; -1; -1; -1; -1; -1; -1].
Proof.
  unfold create_material. intros Hok.
  destruct (negb _); [discriminate|]. unfold_monad.
  destruct (py_index _ _) as [slot|]; [|discriminate].
  destruct (create_texture slot) as [tex|]; [|discriminate].
  injection Hok as <-. simpl.
  destruct (mirror_use (raytrace_mirror source)).
  - repeat split; try discriminate; try (intros _);
      rewrite ?dom_insert_L, ?dom_empty_L; try set_solver;
      now simplify_map_eq.
  - repeat split; try discriminate; try (intros _);
      rewrite ?dom_insert_L, ?dom_empty_L; try set_solver;
      now simplify_map_eq.
Qed.

(** ** The geometry flattener *)

Lemma foldM_app {A S} (f : S -> A -> result S) (l1 l2 : list A) (s : S) :
  foldM f (l1 ++ l2) s = (s' ← foldM f l1 s; foldM f l2 s').
Proof.
  revert s; induction l1 as [|a l1 IH]; intros s; simpl; unfold_monad; auto.
  destruct (f s a); auto.
Qed.

Lemma enumerate_lookup {A} (l : list A) (i : nat) (a : A) :
  (i, a) ∈ enumerate l -> l !! i = Some a.
Proof.
  unfold enumerate. intros Hin.
  apply list_elem_of_lookup in Hin as [j Hj].
  apply lookup_zip_with_Some in Hj as (x & y & Hxy & Hx & Hy).
  injection Hxy as -> ->.
  apply lookup_seq in Hx as [-> _]. assumption.
Qed.

(** What the inner loop appends: one vertex for each corner. *)
Lemma emit_loop_shape (mesh : Mesh) (uvFace : MeshTextureFace)
    (ivs : list (nat * nat)) (vs r : list (list pynum)) :
  foldM (emit_vertex mesh uvFace) ivs vs = Ok r ->
  exists fresh, r = vs ++ fresh /\ length fresh = length ivs
    /\ Forall (fun vtx => exists i vtxIndex v tu tv,
                 (i, vtxIndex) ∈ ivs
                 /\ mesh_vertices mesh !! vtxIndex = Some v
                 /\ uv uvFace !! i = Some (tu, tv)
                 /\ vtx = make_vertex (vector_to_edm (co v))
                            (vector_to_edm (normal v)) [tu; float_neg tv]) fresh.
Proof.
  revert vs; induction ivs as [|[i vi] ivs IH]; intros vs Hok; simpl in Hok.
  - injection Hok as <-. exists []. rewrite app_nil_r. auto.
  - unfold_monad. unfold emit_vertex at 1 in Hok. unfold py_index in Hok.
    unfold_monad.
    destruct (mesh_vertices mesh !! vi) as [v|] eqn:Ev; [|discriminate].
    destruct (uv uvFace !! i) as [[tu tv]|] eqn:Eu; [|discriminate].
    apply IH in Hok as (fresh & -> & Hlen & Hall).
    eexists (_ :: fresh). rewrite <- app_assoc. split; [reflexivity|].
    split; [simpl; lia|]. constructor.
    + exists i, vi, v, tu, tv. repeat split; auto. left.
    + eapply Forall_impl; [exact Hall|].
      intros vtx (i' & vi' & v' & tu' & tv' & Hin & H1 & H2 & H3).
      exists i', vi', v', tu', tv'. repeat split; auto. now right.
Qed.

Lemma emit_loop_ok (mesh : Mesh) (uvFace : MeshTextureFace)
    (ivs : list (nat * nat)) (vs : list (list pynum)) :
  Forall (fun iv => is_Some (mesh_vertices mesh !! iv.2)
                    /\ is_Some (uv uvFace !! iv.1)) ivs ->
  exists r, foldM (emit_vertex mesh uvFace) ivs vs = Ok r.
Proof.
  intros Hall; revert vs.
  induction Hall as [|[i vi] ivs [[v Hv] [t Ht]] _ IH]; intros vs; simpl.
  - eauto.
  - unfold_monad. unfold emit_vertex at 1. unfold py_index. unfold_monad.
    simpl in Hv, Ht. rewrite Hv, Ht. apply IH.
Qed.

Lemma face_ok_corners (mesh : Mesh) (face : MeshTessFace) (uvFace : MeshTextureFace) :
  face_ok mesh (face, uvFace) ->
  Forall (fun iv => is_Some (mesh_vertices mesh !! iv.2)
                    /\ is_Some (uv uvFace !! iv.1))
         (enumerate (face_vertices face)).
Proof.
  intros (_ & Hv & Hu). simpl in *. apply Forall_forall. intros [i vi] Hin.
  apply enumerate_lookup in Hin. simpl. split.
  - apply lookup_lt_is_Some. eapply Forall_forall in Hv; [exact Hv|].
    eapply list_elem_of_lookup_2; eauto.
  - apply lookup_lt_is_Some. apply lookup_lt_Some in Hin. lia.
Qed.

Lemma py_index_offsets (n len i : nat) :
  (i < len)%nat ->
  py_index ((fun x => (n + x)%nat) <$> seq 0 len) i = Ok (n + i)%nat.
Proof.
  intros Hi. unfold py_index.
  rewrite list_lookup_fmap, (lookup_seq_lt 0 len i Hi). reflexivity.
Qed.

Lemma index_loop (n len : nat) (idx : list nat) :
  (len = 3 \/ 4 <= len)%nat ->
  foldM (fun acc tri =>
           foldM (fun acc i =>
                    x ← py_index ((fun x => (n + x)%nat) <$> seq 0 len) i;
                    mret (acc ++ [x]))
                 tri acc)
        (if Nat.eqb len 3 then [[0; 1; 2]]%nat else [[0; 1; 2]; [2; 3; 0]]%nat)
        idx
  = Ok (idx ++ face_indices n len).
Proof.
  intros Hlen. unfold face_indices.
  destruct (Nat.eqb_spec len 3) as [->|Hne]; cbn [foldM]; unfold_monad.
  - rewrite !py_index_offsets by lia. rewrite <- !app_assoc, Nat.add_0_r.
    reflexivity.
  - rewrite !py_index_offsets by lia. rewrite <- !app_assoc, Nat.add_0_r.
    reflexivity.
Qed.

(** One face, on any loop state: as many fresh vertices as the face has
    corners, and its triangles over exactly these vertices. *)
Lemma flatten_face_ok (mesh : Mesh) (face : MeshTessFace)
    (uvFace : MeshTextureFace) (vs : list (list pynum)) (idx : list nat) :
  face_ok mesh (face, uvFace) ->
  exists fresh,
    flatten_face mesh (vs, idx) (face, uvFace)
    = Ok (vs ++ fresh, idx ++ face_indices (length vs) (length (face_vertices face)))
    /\ length fresh = length (face_vertices face).
Proof.
  intros Hok. unfold flatten_face.
  destruct (emit_loop_ok mesh uvFace (enumerate (face_vertices face)) vs
              (face_ok_corners _ _ _ Hok)) as [r Hr].
  destruct (emit_loop_shape _ _ _ _ _ Hr) as (fresh & -> & Hlen & _).
  exists fresh. rewrite Hr, bind_Ok.
  destruct Hok as (Hn & _ & _). simpl in Hn.
  rewrite (index_loop (length vs) _ idx Hn), bind_Ok. split; [reflexivity|].
  rewrite Hlen. unfold enumerate. rewrite length_zip_with, length_seq. lia.
Qed.

Lemma flatten_face_shape (mesh : Mesh) (face : MeshTessFace)
    (uvFace : MeshTextureFace) (vs vs' : list (list pynum)) (idx idx' : list nat) :
  flatten_face mesh (vs, idx) (face, uvFace) = Ok (vs', idx') ->
  exists fresh, vs' = vs ++ fresh
                /\ Forall (corner_vertex mesh face uvFace) fresh.
Proof.
  unfold flatten_face. unfold_monad. intros Hok.
  destruct (foldM (emit_vertex mesh uvFace) _ vs) as [r|] eqn:Hr; [|discriminate].
  destruct (foldM _ _ idx) as [r'|]; [|discriminate].
  injection Hok as <- <-.
  destruct (emit_loop_shape _ _ _ _ _ Hr) as (fresh & -> & _ & Hall).
  exists fresh. split; [reflexivity|].
  eapply Forall_impl; [exact Hall|].
  intros vtx (i & vi & v & tu & tv & Hin & Hv & Hu & ->).
  exists i, vi, v, tu, tv. repeat split; auto using enumerate_lookup.
Qed.

(** The loop over the faces only appends. *)
Lemma flatten_loop_extends (mesh : Mesh)
    (pairs : list (MeshTessFace * MeshTextureFace))
    (vs vs' : list (list pynum)) (idx idx' : list nat) :
  Forall (face_ok mesh) pairs ->
  foldM (flatten_face mesh) pairs (vs, idx) = Ok (vs', idx') ->
  exists va ia, vs' = vs ++ va /\ idx' = idx ++ ia.
Proof.
  intros Hall; revert vs idx.
  induction Hall as [|[face uvFace] pairs Hok _ IH]; intros vs idx Hrun;
    cbn [foldM] in Hrun.
  - injection Hrun as <- <-. exists [], []. now rewrite !app_nil_r.
  - destruct (flatten_face_ok mesh face uvFace vs idx Hok) as (fresh & Hf & _).
    rewrite Hf, bind_Ok in Hrun. apply IH in Hrun as (va & ia & -> & ->).
    exists (fresh ++ va), (face_indices (length vs) (length (face_vertices face)) ++ ia).
    now rewrite !app_assoc.
Qed.

Lemma flatten_loop_ok (mesh : Mesh)
    (pairs : list (MeshTessFace * MeshTextureFace))
    (vs : list (list pynum)) (idx : list nat) :
  Forall (face_ok mesh) pairs ->
  exists vs' idx', foldM (flatten_face mesh) pairs (vs, idx) = Ok (vs', idx').
Proof.
  intros Hall; revert vs idx.
  induction Hall as [|[face uvFace] pairs Hok _ IH]; intros vs idx; cbn [foldM].
  - eauto.
  - destruct (flatten_face_ok mesh face uvFace vs idx Hok) as (fresh & -> & _).
    rewrite bind_Ok. apply IH.
Qed.

Lemma flatten_loop_shape (mesh : Mesh)
    (pairs : list (MeshTessFace * MeshTextureFace))
    (vs vs' : list (list pynum)) (idx idx' : list nat) :
  foldM (flatten_face mesh) pairs (vs, idx) = Ok (vs', idx') ->
  exists fresh, vs' = vs ++ fresh
    /\ Forall (fun vtx => exists face uvFace,
                 (face, uvFace) ∈ pairs /\ corner_vertex mesh face uvFace vtx)
              fresh.
Proof.
  revert vs idx; induction pairs as [|[face uvFace] pairs IH]; intros vs idx Hrun;
    cbn [foldM] in Hrun.
  - injection Hrun as <- <-. exists []. now rewrite app_nil_r.
  - destruct (flatten_face mesh (vs, idx) (face, uvFace)) as [[vs1 idx1]|] eqn:Hf;
      [|discriminate].
    rewrite bind_Ok in Hrun.
    apply flatten_face_shape in Hf as (fresh1 & -> & Hall1).
    apply IH in Hrun as (fresh & -> & Hall).
    exists (fresh1 ++ fresh). rewrite app_assoc. split; [reflexivity|].
    apply Forall_app. split.
    + eapply Forall_impl; [exact Hall1|]. intros vtx Hc.
      exists face, uvFace. split; [left|assumption].
    + eapply Forall_impl; [exact Hall|]. intros vtx (f & u & Hin & Hc).
      exists f, u. split; [now right|assumption].
Qed.

(** C2.  On a mesh whose faces can be processed, the flattener returns
    buffers in which every face [k] has its own block.  The faces before
    it have emitted [vs_before] and [idx_before]; the face appends the
    vertices [fresh], as many as it has corners, and the indices [tri],
    which for a 3-vertex face are the triangle (0,1,2) and for a 4-vertex
    face the triangles (0,1,2) and (2,3,0), each local index offset by
    the number of vertices emitted before the face; the later faces
    append the rest.  The indices of a face thus point at its own fresh
    vertices only: none is shared. *)
Theorem flatten_triangulates (mesh : Mesh) (uv_tex : list MeshTextureFace) :
  Forall (face_ok mesh) (zip (tessfaces mesh) uv_tex) ->
  exists vs idx,
    flatten mesh uv_tex = Ok (vs, idx)
    /\ forall (k : nat) (face : MeshTessFace) (uvFace : MeshTextureFace),
        zip (tessfaces mesh) uv_tex !! k = Some (face, uvFace) ->
        exists vs_before idx_before fresh tri vs_after idx_after,
          foldM (flatten_face mesh) (take k (zip (tessfaces mesh) uv_tex)) ([], [])
          = Ok (vs_before, idx_before)
          /\ flatten_face mesh (vs_before, idx_before) (face, uvFace)
             = Ok (vs_before ++ fresh, idx_before ++ tri)
          /\ vs = vs_before ++ fresh ++ vs_after
          /\ idx = idx_before ++ tri ++ idx_after
          /\ length fresh = length (face_vertices face)
          /\ (length (face_vertices face) = 3%nat ->
              tri = [length vs_before; length vs_before + 1;
                     length vs_before + 2]%nat)
          /\ (length (face_vertices face) = 4%nat ->
              tri = [length vs_before; length vs_before + 1;
                     length vs_before + 2; length vs_before + 2;
                     length vs_before + 3; length vs_before]%nat).
Proof.
  unfold flatten. set (pairs := zip (tessfaces mesh) uv_tex). intros Hall.
  destruct (flatten_loop_ok mesh pairs [] [] Hall) as (vs & idx & Hrun).
  exists vs, idx. split; [assumption|].
  intros k face uvFace Hk.
  pose proof (take_drop_middle pairs k _ Hk) as Hsplit.
  rewrite <- Hsplit in Hall. apply Forall_app in Hall as [Hbefore Hrest].
  apply Forall_cons in Hrest as [Hface Hafter].
  destruct (flatten_loop_ok mesh (take k pairs) [] [] Hbefore)
    as (vs_before & idx_before & Hb).
  rewrite <- Hsplit, foldM_app, Hb, bind_Ok in Hrun. cbn [foldM] in Hrun.
  destruct (flatten_face_ok mesh face uvFace vs_before idx_before Hface)
    as (fresh & Hf & Hlen).
  rewrite Hf, bind_Ok in Hrun.
  destruct (flatten_loop_extends _ _ _ _ _ _ Hafter Hrun) as (va & ia & -> & ->).
  exists vs_before, idx_before, fresh,
    (face_indices (length vs_before) (length (face_vertices face))), va, ia.
  rewrite <- !app_assoc. repeat split; auto.
  - intros ->. reflexivity.
  - intros ->. reflexivity.
Qed.

(** ** [create_rendernode] *)

(** The first steps of [create_rendernode], up to the mesh. *)
Lemma create_rendernode_unfold (source : BObject) (material : ref)
    (options : gmap string bool) (w : world) :
  let mesh := mesh_transform (matrix_local source)
                (to_mesh source (default false (options !! "apply_modifiers"))) in
  let w1 := {| data_meshes := data_meshes w ++ [mesh_serial w];
               mesh_serial := S (mesh_serial w);
               heap := heap w; files := files w |} in
  create_rendernode source material options w
  = match tessface_uv_active mesh with
    | None => (w1, Raise AttributeError)
    | Some uv_tex =>
        match flatten mesh uv_tex with
        | Raise e => (w1, Raise e)
        | Ok (newVertices, newIndexValues) =>
            ({| data_meshes := filter (fun x => x <> mesh_serial w) (data_meshes w1);
                mesh_serial := S (mesh_serial w);
                heap := heap w; files := files w |},
             Ok {| rn_name := ob_name source; rn_material := material;
                   rn_parent := RenderNode_parent;
                   vertexData := newVertices; indexData := newIndexValues |})
        end
    end.
Proof.
  intros mesh w1. unfold create_rendernode, host_to_mesh, meshes_remove.
  unfold_monad. fold mesh.
  destruct (tessface_uv_active mesh) as [uv_tex|]; [|reflexivity].
  destruct (flatten mesh uv_tex) as [[vs idx]|]; reflexivity.
Qed.

(** C3.  Every vertex of the render node [create_rendernode] returns is
    the vertex of a corner of a face of the transformed mesh: the three
    components of the position, the integer 0, the three components of the
    normal, then U and the negated V of the corner's UV entry. *)
Theorem rendernode_vertex_layout (source : BObject) (material : ref)
    (options : gmap string bool) (w w' : world) (node : BuiltNode)
    (vtx : list pynum) :
  create_rendernode source material options w = (w', Ok node) ->
  vtx ∈ vertexData node ->
  exists (uv_tex : list MeshTextureFace) (face : MeshTessFace)
         (uvFace : MeshTextureFace),
    let mesh := mesh_transform (matrix_local source)
                  (to_mesh source (default false (options !! "apply_modifiers"))) in
    tessface_uv_active mesh = Some uv_tex
    /\ (face, uvFace) ∈ zip (tessfaces mesh) uv_tex
    /\ corner_vertex mesh face uvFace vtx.
Proof.
  rewrite create_rendernode_unfold. cbv zeta.
  set (mesh := mesh_transform _ _).
  destruct (tessface_uv_active mesh) as [uv_tex|] eqn:Huv; [|discriminate].
  destruct (flatten mesh uv_tex) as [[vs idx]|] eqn:Hfl; [|discriminate].
  intros Hrun Hin. injection Hrun as _ <-. simpl in Hin.
  apply flatten_loop_shape in Hfl as (fresh & -> & Hall).
  simpl in Hin. eapply Forall_forall in Hall as (face & uvFace & Hf & Hc); eauto.
  exists uv_tex, face, uvFace. auto.
Qed.

(** C9, as the code has it.  When [create_rendernode] returns a render
    node, the transient mesh it created has been removed from the mesh
    data again, before the node is returned; when it raises after the
    mesh was created, the mesh is still there. *)
Theorem transient_mesh_released_on_return (source : BObject) (material : ref)
    (options : gmap string bool) (w w' : world) (r : result BuiltNode) :
  create_rendernode source material options w = (w', r) ->
  mesh_serial w' = S (mesh_serial w)
  /\ (forall node, r = Ok node ->
       data_meshes w' = filter (fun x => x <> mesh_serial w) (data_meshes w)
       /\ mesh_serial w ∉ data_meshes w')
  /\ (forall e, r = Raise e ->
       data_meshes w' = data_meshes w ++ [mesh_serial w]
       /\ mesh_serial w ∈ data_meshes w').
Proof.
  rewrite create_rendernode_unfold. cbv zeta.
  destruct (tessface_uv_active _) as [uv_tex|].
  - destruct (flatten _ uv_tex) as [[vs idx]|].
    + intros [= <- <-]. simpl. repeat split; try discriminate.
      * rewrite filter_app, filter_cons_False by auto.
        now rewrite filter_nil, app_nil_r.
      * intros Hin. apply list_elem_of_filter in Hin as [Hne _]. now apply Hne.
    + intros [= <- <-]. simpl. repeat split; try discriminate.
      apply elem_of_app. right. left.
  - intros [= <- <-]. simpl. repeat split; try discriminate.
    apply elem_of_app. right. left.
Qed.

(** ** The node table *)

Lemma material_index_numbered {Par} (w : world) (rn : RenderNode ref Par)
    (mat : Material) (i : nat) :
  heap w !! rn_material rn = Some mat -> mat_index mat = Some i ->
  material_index rn w = (w, Ok i).
Proof.
  intros Hm Hi. unfold material_index, deref. unfold_monad. now rewrite Hm, Hi.
Qed.

(** The loop, from any state [(nodes, done)]: the parents are appended to
    the node list in order, and a render node with a parent gets the
    position its parent was appended at. *)
Lemma resolve_loop (rns : list BuiltNode) (w : world) :
  Forall (material_numbered w) rns ->
  forall (nodes : list Node) (done : list FinalNode),
  exists out,
    foldM resolve_node rns (nodes, done) w
    = (w, Ok (nodes ++ omap rn_parent rns, done ++ out))
    /\ length out = length rns
    /\ forall k rn, rns !! k = Some rn ->
        exists rn', out !! k = Some rn'
          /\ rn_parent rn'
             = match rn_parent rn with
               | None => 0%nat
               | Some _ => (length nodes + length (omap rn_parent (take k rns)))%nat
               end.
Proof.
  induction 1 as [|rn rns (mat & i & Hm & Hi) _ IH]; intros nodes done.
  - exists []. cbn. rewrite !app_nil_r. repeat split. intros k rn Hk. inversion Hk.
  - cbn [foldM]. unfold_monad. unfold resolve_node at 1.
    destruct (rn_parent rn) as [p|] eqn:Hp; unfold_monad.
    + rewrite (material_index_numbered w (set_parent _ rn) mat i Hm Hi).
      destruct (IH (nodes ++ [p]) (done ++ [set_material i (set_parent (length (nodes ++ [p]) - 1) rn)]))
        as (out & -> & Hlen & Hall).
      eexists (_ :: out). cbn [omap list_omap]. rewrite Hp, <- !app_assoc.
      split; [reflexivity|]. split; [simpl; lia|].
      intros [|k] rn0 Hk; simpl in Hk.
      * injection Hk as <-. eexists. split; [reflexivity|]. rewrite Hp. simpl.
        rewrite length_app. simpl. lia.
      * destruct (Hall k rn0 Hk) as (rn' & Hout & Hpar).
        exists rn'. split; [assumption|]. rewrite Hpar.
        destruct (rn_parent rn0); [|reflexivity].
        cbn [take omap list_omap]. rewrite Hp, length_app. simpl. lia.
    + rewrite (material_index_numbered w (set_parent _ rn) mat i Hm Hi).
      destruct (IH nodes (done ++ [set_material i (set_parent 0 rn)]))
        as (out & -> & Hlen & Hall).
      eexists (_ :: out). cbn [omap list_omap]. rewrite Hp, <- !app_assoc.
      split; [reflexivity|]. split; [simpl; lia|].
      intros [|k] rn0 Hk; simpl in Hk.
      * injection Hk as <-. eexists. split; [reflexivity|]. now rewrite Hp.
      * destruct (Hall k rn0 Hk) as (rn' & Hout & Hpar).
        exists rn'. split; [assumption|]. rewrite Hpar.
        destruct (rn_parent rn0); [|reflexivity].
        cbn [take omap list_omap]. now rewrite Hp.
Qed.

Lemma omap_parent_lookup (rns : list BuiltNode) (k : nat) (rn : BuiltNode) (p : Node) :
  rns !! k = Some rn -> rn_parent rn = Some p ->
  omap rn_parent rns !! length (omap rn_parent (take k rns)) = Some p.
Proof.
  intros Hk Hp.
  assert (E : omap rn_parent rns
              = omap rn_parent (take k rns) ++ p :: omap rn_parent (drop (S k) rns)).
  { rewrite <- (take_drop_middle rns k rn Hk) at 1.
    rewrite omap_app. cbn [omap list_omap]. now rewrite Hp. }
  rewrite E, lookup_app_r by lia. now rewrite Nat.sub_diag.
Qed.

(** C4.  The node table starts with the root [Node()] at index 0 and then
    holds, in order, the parent of each render node that has one.  A
    render node without parent gets the parent index 0; a render node with
    a parent gets the index at which its parent was appended, which is the
    length the table had before, and this index is within the table. *)
Theorem node_table_parents (rns : list BuiltNode) (w : world) :
  Forall (material_numbered w) rns ->
  exists (nodes : list Node) (out : list FinalNode),
    build_nodes rns w = (w, Ok (nodes, out))
    /\ nodes = Node_new :: omap rn_parent rns
    /\ length out = length rns
    /\ forall k rn, rns !! k = Some rn ->
        exists rn', out !! k = Some rn'
          /\ (rn_parent rn = None -> rn_parent rn' = 0%nat)
          /\ (forall p, rn_parent rn = Some p ->
               rn_parent rn' = length (Node_new :: omap rn_parent (take k rns))
               /\ nodes !! rn_parent rn' = Some p
               /\ (rn_parent rn' < length nodes)%nat).
Proof.
  intros Hnum. unfold build_nodes.
  destruct (resolve_loop rns w Hnum [Node_new] []) as (out & Hrun & Hlen & Hall).
  exists (Node_new :: omap rn_parent rns), out.
  split; [exact Hrun|]. split; [reflexivity|]. split; [assumption|].
  intros k rn Hk. destruct (Hall k rn Hk) as (rn' & Hout & Hpar).
  exists rn'. split; [assumption|]. split.
  - intros Hnone. now rewrite Hpar, Hnone.
  - intros p Hp. rewrite Hp in Hpar. simpl in Hpar.
    assert (Hlook : (Node_new :: omap rn_parent rns) !! rn_parent rn' = Some p).
    { rewrite Hpar. simpl. now apply omap_parent_lookup with rn. }
    split; [now rewrite Hpar|]. split; [assumption|].
    now apply lookup_lt_Some in Hlook.
Qed.

(** ** The tables of the written file *)

(** A loop in [M] that returns keeps what every body keeps; [Inv] counts
    the items processed. *)
Lemma foldM_returns {A St} (f : St -> A -> M St)
    (Inv : nat -> St -> world -> Prop) (l : list A) :
  (forall n s a w w' s', Inv n s w -> f s a w = (w', Ok s') -> Inv (S n) s' w') ->
  forall n s w w' s',
    Inv n s w -> foldM f l s w = (w', Ok s') -> Inv (n + length l)%nat s' w'.
Proof.
  intros Hstep. induction l as [|a l IH]; intros n s w w' s' Hinv Hrun;
    cbn [foldM] in Hrun.
  - injection Hrun as <- <-. now rewrite Nat.add_0_r.
  - unfold_monad. destruct (f s a w) as [w1 [s1|e]] eqn:Hf; [|discriminate].
    simpl. replace (n + S (length l))%nat with (S n + length l)%nat by lia.
    eapply IH; eauto.
Qed.

Lemma mapM_length {A B} (f : A -> result B) (l : list A) (r : list B) :
  mapM f l = Ok r -> length r = length l.
Proof.
  revert r; induction l as [|a l IH]; intros r Hrun; cbn [mapM] in Hrun.
  - now injection Hrun as <-.
  - unfold_monad. destruct (f a); [|discriminate].
    destruct (mapM f l); [|discriminate]. injection Hrun as <-.
    simpl. f_equal. now apply IH.
Qed.

Lemma mapM_deref (refs : list ref) (w w' : world) (mats : list Material) :
  mapM deref refs w = (w', Ok mats) -> w' = w /\ length mats = length refs.
Proof.
  revert mats; induction refs as [|r refs IH]; intros mats Hrun;
    cbn [mapM] in Hrun; unfold_monad.
  - now injection Hrun as <- <-.
  - unfold deref at 1 in Hrun. destruct (heap w !! r); [|discriminate].
    destruct (mapM deref refs w) as [w1 [ms|e]]; [|discriminate].
    injection Hrun as <- <-. destruct (IH ms eq_refl) as [-> Hlen].
    split; [reflexivity|]. simpl. now f_equal.
Qed.

Lemma number_materials_length (materialMap : gmap string ref)
    (ms : list (option BMaterial)) (w w' : world) (refs : list ref) :
  number_materials materialMap ms w = (w', Ok refs) ->
  length refs = length ms /\ same_outside w w'.
Proof.
  intros Hrun. unfold number_materials in Hrun.
  eapply (foldM_returns _ (fun n (mats : list ref) w1 =>
                             length mats = n /\ same_outside w w1))
    with (n := 0%nat) in Hrun.
  - unfold enumerate in Hrun. rewrite length_zip_with, length_seq in Hrun.
    destruct Hrun as [Hlen Hsame]. split; [lia|assumption].
  - intros n s [i bMat] w0 w1 s' [Hlen Hsame] Hf. unfold_monad.
    destruct (material_name bMat); [|discriminate].
    destruct (py_getitem materialMap _); [|discriminate].
    injection Hf as <- <-.
    split; [rewrite length_app; simpl; lia|exact Hsame].
  - split; [reflexivity|repeat split].
Qed.

Lemma build_materialMap_outside (ms : list (option BMaterial)) (w w' : world)
    (materialMap : gmap string ref) :
  build_materialMap ms w = (w', Ok materialMap) -> same_outside w w'.
Proof.
  intros Hrun. unfold build_materialMap in Hrun.
  eapply (foldM_returns _ (fun _ (_ : gmap string ref) w1 => same_outside w w1))
    with (n := 0%nat) in Hrun.
  - exact Hrun.
  - intros n s m w0 w1 s' Hsame Hf. unfold_monad.
    destruct (material_name m); [|discriminate].
    destruct m as [m|]; [|discriminate].
    destruct (create_material m); [|discriminate].
    injection Hf as <- <-. exact Hsame.
  - repeat split.
Qed.

Lemma build_renderNodes_length (materialMap : gmap string ref)
    (options : gmap string bool) (objs : list BObject) (w w' : world)
    (rns : list BuiltNode) :
  build_renderNodes materialMap options objs w = (w', Ok rns) ->
  length rns = length objs /\ files w' = files w /\ heap w' = heap w.
Proof.
  intros Hrun. unfold build_renderNodes in Hrun.
  eapply (foldM_returns _ (fun n (acc : list BuiltNode) w1 =>
                             length acc = n /\ files w1 = files w
                             /\ heap w1 = heap w))
    with (n := 0%nat) in Hrun.
  - exact Hrun.
  - intros n s obj w0 w1 s' (Hlen & Hf & Hh) Hstep. unfold_monad.
    destruct (py_index _ _); [|discriminate].
    destruct (material_name _); [|discriminate].
    destruct (py_getitem materialMap _); [|discriminate].
    rewrite create_rendernode_unfold in Hstep. cbv zeta in Hstep.
    destruct (tessface_uv_active _); [|discriminate].
    destruct (flatten _ _) as [[vs idx]|]; [|discriminate].
    injection Hstep as <- <-.
    split; [rewrite length_app; simpl; lia|auto].
  - auto.
Qed.

Lemma build_nodes_length (rns : list BuiltNode) (w w' : world)
    (nodes : list Node) (out : list FinalNode) :
  build_nodes rns w = (w', Ok (nodes, out)) ->
  length out = length rns /\ w' = w.
Proof.
  intros Hrun. unfold build_nodes in Hrun.
  eapply (foldM_returns _ (fun n (st : list Node * list FinalNode) w1 =>
                             length st.2 = n /\ w1 = w))
    with (n := 0%nat) in Hrun.
  - exact Hrun.
  - intros n [ns done] rn w0 w1 s' [Hlen ->] Hstep. simpl in Hlen.
    unfold resolve_node, material_index, deref in Hstep. unfold_monad.
    destruct (rn_parent rn); simpl in Hstep;
      (destruct (heap w !! rn_material rn) as [mat|]; [|discriminate]);
      (destruct (mat_index mat); [|discriminate]);
      injection Hstep as <- <-; simpl;
      (split; [rewrite length_app; simpl; lia|reflexivity]).
  - auto.
Qed.

(** X1.  When [write_file] returns, it has opened, written and closed one
    file, whose material table and render-node table both have one entry
    for each mesh object of the scene. *)
Lemma write_file_tables (scene : list BObject) (filename : string)
    (options : gmap string bool) (w w' : world) :
  write_file scene filename options w = (w', Ok tt) ->
  exists file,
    files w' = files w ++ [FileOpen filename; FileWrite filename file;
                           FileClose filename]
    /\ length (materials (root file))
       = length (filter (fun x => ob_type x = "MESH") scene)
    /\ length (renderNodes file)
       = length (filter (fun x => ob_type x = "MESH") scene).
Proof.
  unfold write_file. set (objs := filter _ scene). intros Hrun. unfold_monad.
  destruct (first_materials objs) as [ms|] eqn:Hms; [|discriminate].
  apply mapM_length in Hms.
  destruct (build_materialMap ms w) as [w1 [mm|]] eqn:Hmm; [|discriminate].
  apply build_materialMap_outside in Hmm as (Hf1 & _).
  destruct (number_materials mm ms w1) as [w2 [refs|]] eqn:Hnum; [|discriminate].
  apply number_materials_length in Hnum as (Hlen2 & Hf2 & _).
  destruct (build_renderNodes mm options objs w2) as [w3 [rns|]] eqn:Hrn;
    [|discriminate].
  apply build_renderNodes_length in Hrn as (Hlen3 & Hf3 & _).
  destruct (build_nodes rns w3) as [w4 [[ns out]|]] eqn:Hbn; [|discriminate].
  apply build_nodes_length in Hbn as (Hlen4 & ->).
  destruct (calculate_world_bounds scene) as [[bmin bmax]|]; [|discriminate].
  destruct (mapM deref refs w3) as [w5 [mats|]] eqn:Hd; [|discriminate].
  apply mapM_deref in Hd as [-> Hlen5].
  unfold file_do in Hrun. simpl in Hrun. injection Hrun as <-. simpl.
  eexists. rewrite <- !app_assoc. simpl. rewrite Hf3, Hf2, Hf1.
  split; [reflexivity|]. simpl. split; congruence.
Qed.

(** ** The world bounding box *)

Section Bounds.
Context {O : PyFloatOrder F}.

(** What [min] computes, for any strict total order [lt]: [max] is the
    same loop on the converse order. *)
Lemma pick_fold (lt : float -> float -> bool) :
  (forall a, lt a a = false) ->
  (forall a b c, lt a b = true -> lt b c = true -> lt a c = true) ->
  (forall a b, lt a b = false -> lt b a = false -> a = b) ->
  forall xs x,
    let r := fold_left (fun best y => if lt y best then y else best) xs x in
    r ∈ x :: xs /\ forall y, y ∈ x :: xs -> lt y r = false.
Proof.
  intros Hirr Htr Htot.
  assert (Hle : forall a b c, lt b a = false -> lt c b = false -> lt c a = false).
  { intros a b c Hba Hcb. destruct (lt c a) eqn:Hca; [|reflexivity].
    destruct (lt a b) eqn:Hab.
    - rewrite (Htr c a b Hca Hab) in Hcb. discriminate.
    - rewrite (Htot a b Hab Hba) in Hca. congruence. }
  induction xs as [|y xs IH]; intros x; cbn [fold_left].
  - cbv zeta. split; [left|]. intros y Hy.
    apply list_elem_of_singleton in Hy as ->. apply Hirr.
  - specialize (IH (if lt y x then y else x)). cbv zeta in IH |- *.
    destruct IH as [Hin Hmin].
    set (r := fold_left _ xs _) in *. split.
    + apply elem_of_cons in Hin as [->|Hin].
      * destruct (lt y x); [right; left|left].
      * right. now right.
    + assert (Hx' : lt (if lt y x then y else x) r = false).
      { apply Hmin. left. }
      intros z Hz. apply elem_of_cons in Hz as [->|Hz].
      * destruct (lt y x) eqn:Hyx; [|assumption].
        apply (Hle _ y); [assumption|].
        destruct (lt x y) eqn:Hxy; [|reflexivity].
        pose proof (Htr y x y Hyx Hxy) as Hyy. rewrite Hirr in Hyy. discriminate.
      * apply elem_of_cons in Hz as [->|Hz].
        -- destruct (lt y x) eqn:Hyx; [assumption|].
           now apply (Hle _ x).
        -- apply Hmin. now right.
Qed.

Lemma py_min_least (l : list float) (cur : float) :
  exists lo, py_min (l ++ [cur]) = Ok lo /\ is_least lo (l ++ [cur]).
Proof.
  destruct (l ++ [cur]) as [|x xs] eqn:E; [now destruct l|].
  eexists. split; [reflexivity|].
  apply (pick_fold float_lt float_lt_irrefl float_lt_trans float_lt_total).
Qed.

Lemma py_max_greatest (l : list float) (cur : float) :
  exists hi, py_max (l ++ [cur]) = Ok hi /\ is_greatest hi (l ++ [cur]).
Proof.
  destruct (l ++ [cur]) as [|x xs] eqn:E; [now destruct l|].
  eexists. split; [reflexivity|].
  apply (pick_fold (fun a b => float_lt b a)).
  - apply float_lt_irrefl.
  - intros a b c Hab Hbc. exact (float_lt_trans c b a Hbc Hab).
  - intros a b Hab Hba. exact (float_lt_total a b Hba Hab).
Qed.

(** The running minimum over more corners. *)
Lemma is_least_merge (seed m lo : float) (seen new : list float) :
  is_least m (seed :: seen) -> is_least lo (new ++ [m]) ->
  is_least lo (seed :: (seen ++ new)).
Proof.
  intros [Hm Hmin] [Hlo Hlomin]. split.
  - apply elem_of_app in Hlo as [Hlo|Hlo].
    + right. apply elem_of_app. now right.
    + apply list_elem_of_singleton in Hlo as ->.
      apply elem_of_cons in Hm as [->|Hm]; [left|right].
      apply elem_of_app. now left.
  - assert (Hlom : float_lt m lo = false).
    { apply Hlomin. apply elem_of_app. right. left. }
    intros x Hx.
    assert (Hcase : x ∈ seed :: seen \/ x ∈ new).
    { apply elem_of_cons in Hx as [->|Hx]; [left; left|].
      apply elem_of_app in Hx as [Hx|Hx]; [left; now right|now right]. }
    destruct Hcase as [Hx'|Hx'].
    + destruct (float_lt x lo) eqn:Hxlo; [|reflexivity].
      specialize (Hmin x Hx').
      destruct (float_lt lo m) eqn:Hlm.
      * rewrite (float_lt_trans x lo m Hxlo Hlm) in Hmin. discriminate.
      * rewrite (float_lt_total lo m Hlm Hlom) in Hxlo. congruence.
    + apply Hlomin. apply elem_of_app. now left.
Qed.

Lemma is_greatest_merge (seed m hi : float) (seen new : list float) :
  is_greatest m (seed :: seen) -> is_greatest hi (new ++ [m]) ->
  is_greatest hi (seed :: (seen ++ new)).
Proof.
  intros [Hm Hmax] [Hhi Hhimax]. split.
  - apply elem_of_app in Hhi as [Hhi|Hhi].
    + right. apply elem_of_app. now right.
    + apply list_elem_of_singleton in Hhi as ->.
      apply elem_of_cons in Hm as [->|Hm]; [left|right].
      apply elem_of_app. now left.
  - assert (Hhim : float_lt hi m = false).
    { apply Hhimax. apply elem_of_app. right. left. }
    intros x Hx.
    assert (Hcase : x ∈ seed :: seen \/ x ∈ new).
    { apply elem_of_cons in Hx as [->|Hx]; [left; left|].
      apply elem_of_app in Hx as [Hx|Hx]; [left; now right|now right]. }
    destruct Hcase as [Hx'|Hx'].
    + destruct (float_lt hi x) eqn:Hhix; [|reflexivity].
      specialize (Hmax x Hx').
      destruct (float_lt m hi) eqn:Hmh.
      * rewrite (float_lt_trans m hi x Hmh Hhix) in Hmax. discriminate.
      * rewrite <- (float_lt_total m hi Hmh Hhim) in Hhix. congruence.
    + apply Hhimax. apply elem_of_app. now left.
Qed.

Lemma mapM_vec_index (points : list Vector) (index : nat) :
  (index < 3)%nat ->
  mapM (fun point => vec_index point index) points = Ok (axis index <$> points).
Proof.
  intros Hi. induction points as [|pt points IH]; [reflexivity|].
  cbn [mapM]. rewrite IH.
  destruct index as [|[|[|index]]]; try lia; reflexivity.
Qed.

(** One axis of one object. *)
Lemma bounds_axis_run (points : list Vector) (mins maxs : list float)
    (index : nat) (cur cur' : float) :
  (index < 3)%nat -> mins !! index = Some cur -> maxs !! index = Some cur' ->
  exists lo hi,
    bounds_axis points (mins, maxs) index
    = Ok (<[index := lo]> mins, <[index := hi]> maxs)
    /\ is_least lo ((axis index <$> points) ++ [cur])
    /\ is_greatest hi ((axis index <$> points) ++ [cur']).
Proof.
  intros Hi Hcur Hcur'. unfold bounds_axis, py_index.
  rewrite (mapM_vec_index points index Hi), Hcur, Hcur', !bind_Ok.
  destruct (py_min_least (axis index <$> points) cur) as (lo & -> & Hlo).
  rewrite ?bind_Ok. cbv zeta. rewrite ?bind_Ok.
  destruct (py_max_greatest (axis index <$> points) cur') as (hi & -> & Hhi).
  exists lo, hi. auto.
Qed.

(** One object: a camera leaves the state alone, any other object merges
    its world-space corners into the running extrema. *)
Lemma bounds_object_skip (st : list float * list float) (obj : BObject) :
  ob_type obj = "CAMERA" -> bounds_object st obj = Ok st.
Proof.
  intros Hc. unfold bounds_object. rewrite bool_decide_eq_true_2; [reflexivity|].
  rewrite Hc. left.
Qed.

Lemma bounds_object_run (pts : list Vector) (st : list float * list float)
    (obj : BObject) :
  ob_type obj <> "CAMERA" -> bounds_inv pts st ->
  exists st', bounds_object st obj = Ok st'
              /\ bounds_inv (pts ++ world_corners obj) st'.
Proof.
  intros Hc (a & b & c & a' & b' & c' & -> & Ha & Hb & Hc0 & Ha' & Hb' & Hc').
  unfold bounds_object. rewrite bool_decide_eq_false_2.
  2:{ intros Hin. apply list_elem_of_singleton in Hin. contradiction. }
  fold (world_corners obj). cbn [seq foldM].
  destruct (bounds_axis_run (world_corners obj) [a; b; c] [a'; b'; c'] 0 a a')
    as (x & x' & -> & Hx & Hx'); [lia|reflexivity|reflexivity|].
  rewrite bind_Ok. cbn [insert list_insert].
  destruct (bounds_axis_run (world_corners obj) [x; b; c] [x'; b'; c'] 1 b b')
    as (y & y' & -> & Hy & Hy'); [lia|reflexivity|reflexivity|].
  rewrite bind_Ok. cbn [insert list_insert].
  destruct (bounds_axis_run (world_corners obj) [x; y; c] [x'; y'; c'] 2 c c')
    as (z & z' & -> & Hz & Hz'); [lia|reflexivity|reflexivity|].
  rewrite bind_Ok. cbn [insert list_insert].
  eexists. split; [reflexivity|].
  exists x, y, z, x', y', z'. rewrite !fmap_app.
  split; [reflexivity|].
  split; [exact (is_least_merge _ _ _ _ _ Ha Hx)|].
  split; [exact (is_least_merge _ _ _ _ _ Hb Hy)|].
  split; [exact (is_least_merge _ _ _ _ _ Hc0 Hz)|].
  split; [exact (is_greatest_merge _ _ _ _ _ Ha' Hx')|].
  split; [exact (is_greatest_merge _ _ _ _ _ Hb' Hy')|].
  exact (is_greatest_merge _ _ _ _ _ Hc' Hz').
Qed.

Lemma scene_corners_cons (obj : BObject) (objects : list BObject) :
  scene_corners (obj :: objects)
  = (if decide (ob_type obj = "CAMERA") then [] else world_corners obj)
    ++ scene_corners objects.
Proof.
  unfold scene_corners. rewrite filter_cons.
  destruct (decide (ob_type obj = "CAMERA")) as [Hc|Hc].
  - rewrite decide_False by auto. reflexivity.
  - rewrite decide_True by auto. reflexivity.
Qed.

Lemma bounds_loop (objects : list BObject) (pts : list Vector)
    (st : list float * list float) :
  bounds_inv pts st ->
  exists st', foldM bounds_object objects st = Ok st'
              /\ bounds_inv (pts ++ scene_corners objects) st'.
Proof.
  revert pts st. induction objects as [|obj objects IH]; intros pts st Hinv.
  - exists st. split; [reflexivity|]. unfold scene_corners. cbn.
    now rewrite app_nil_r.
  - cbn [foldM]. rewrite scene_corners_cons.
    destruct (decide (ob_type obj = "CAMERA")) as [Hc|Hc].
    + rewrite (bounds_object_skip st obj Hc), bind_Ok. now apply IH.
    + destruct (bounds_object_run pts st obj Hc Hinv) as (st1 & -> & Hinv1).
      rewrite bind_Ok, app_assoc. now apply IH.
Qed.

(** A seed that no coordinate passes can be left out. *)
Lemma is_least_drop_seed (seed m : float) (l : list float) :
  l <> [] -> (forall c, c ∈ l -> float_lt seed c = false) ->
  is_least m (seed :: l) -> is_least m l.
Proof.
  intros Hne Hseed [Hm Hmin]. split.
  - apply elem_of_cons in Hm as [->|Hm]; [|assumption].
    destruct l as [|x l]; [contradiction|].
    assert (Hx : x ∈ x :: l) by left.
    rewrite (float_lt_total seed x (Hseed x Hx)); [assumption|].
    apply Hmin. now right.
  - intros x Hx. apply Hmin. now right.
Qed.

Lemma is_greatest_drop_seed (seed m : float) (l : list float) :
  l <> [] -> (forall c, c ∈ l -> float_lt c seed = false) ->
  is_greatest m (seed :: l) -> is_greatest m l.
Proof.
  intros Hne Hseed [Hm Hmax]. split.
  - apply elem_of_cons in Hm as [->|Hm]; [|assumption].
    destruct l as [|x l]; [contradiction|].
    assert (Hx : x ∈ x :: l) by left.
    rewrite <- (float_lt_total x seed (Hseed x Hx)); [assumption|].
    apply Hmax. now right.
  - intros x Hx. apply Hmax. now right.
Qed.

Lemma within_seeds_axis (pts : list Vector) (index : nat) (c : float) :
  (index < 3)%nat -> within_seeds pts -> c ∈ axis index <$> pts ->
  float_lt lit_1e38 c = false /\ float_lt c (float_neg lit_1e38) = false.
Proof.
  intros Hi Hw Hc. apply list_elem_of_fmap in Hc as (pt & -> & Hpt).
  unfold within_seeds in Hw. rewrite Forall_forall in Hw.
  specialize (Hw pt Hpt). rewrite Forall_forall in Hw. apply Hw.
  unfold vec_iter. destruct index as [|[|[|index]]]; try lia; simpl.
  - left.
  - right; left.
  - right; right; left.
Qed.

Lemma bounds_inv_axis (pts : list Vector) (a b c a' b' c' : float) (index : nat) :
  (index < 3)%nat ->
  bounds_inv pts ([a; b; c], [a'; b'; c']) ->
  is_least (axis index (mkVector a b c)) (lit_1e38 :: (axis index <$> pts))
  /\ is_greatest (axis index (mkVector a' b' c'))
                 (float_neg lit_1e38 :: (axis index <$> pts)).
Proof.
  intros Hi (x & y & z & x' & y' & z' & [= -> -> -> -> -> ->] & H).
  destruct H as (Hx & Hy & Hz & Hx' & Hy' & Hz').
  destruct index as [|[|[|index]]]; try lia; simpl; auto.
Qed.

(** C7, as the code has it.  [calculate_world_bounds] returns, on each
    axis, the least of 1e38 and the coordinates of the world-space
    bounding-box corners of the objects that are not cameras, and the
    greatest of -1e38 and these coordinates.  For a single such object
    with its 8 corners, none of whose coordinates lies beyond the seeds,
    this is the componentwise minimum and maximum of the corners. *)
Theorem world_bounds_extrema (objects : list BObject) :
  exists vmin vmax,
    calculate_world_bounds objects = Ok (vmin, vmax)
    /\ (forall index, (index < 3)%nat ->
         is_least (axis index vmin)
                  (lit_1e38 :: (axis index <$> scene_corners objects))
         /\ is_greatest (axis index vmax)
                        (float_neg lit_1e38 :: (axis index <$> scene_corners objects)))
    /\ (forall obj,
         filter (fun o => ob_type o <> "CAMERA") objects = [obj] ->
         length (bound_box obj) = 8%nat ->
         within_seeds (world_corners obj) ->
         forall index, (index < 3)%nat ->
           is_least (axis index vmin) (axis index <$> world_corners obj)
           /\ is_greatest (axis index vmax) (axis index <$> world_corners obj)).
Proof.
  unfold calculate_world_bounds.
  destruct (bounds_loop objects []
              ([lit_1e38; lit_1e38; lit_1e38],
               [float_neg lit_1e38; float_neg lit_1e38; float_neg lit_1e38]))
    as (st & -> & Hinv).
  { exists lit_1e38, lit_1e38, lit_1e38,
      (float_neg lit_1e38), (float_neg lit_1e38), (float_neg lit_1e38).
    split; [reflexivity|].
    assert (Hl : forall s : float, is_least s (s :: []) /\ is_greatest s (s :: [])).
    { intros s. split; (split; [left|]); intros x Hx;
        apply list_elem_of_singleton in Hx as ->; apply float_lt_irrefl. }
    cbn [fmap list_fmap]. repeat split; apply Hl. }
  rewrite app_nil_l in Hinv.
  pose proof Hinv as (a & b & c & a' & b' & c' & -> & _).
  rewrite bind_Ok. cbn.
  exists (mkVector a b c), (mkVector a' b' c'). split; [reflexivity|].
  assert (Hall : forall index, (index < 3)%nat ->
            is_least (axis index (mkVector a b c))
                     (lit_1e38 :: (axis index <$> scene_corners objects))
            /\ is_greatest (axis index (mkVector a' b' c'))
                 (float_neg lit_1e38 :: (axis index <$> scene_corners objects))).
  { intros index Hi. now apply bounds_inv_axis. }
  split; [exact Hall|].
  intros obj Hone Hbox Hw index Hi.
  destruct (Hall index Hi) as [Hlo Hhi].
  assert (Hsc : scene_corners objects = world_corners obj).
  { unfold scene_corners. rewrite Hone. cbn. apply app_nil_r. }
  rewrite Hsc in Hlo, Hhi.
  assert (Hne : axis index <$> world_corners obj <> []).
  { unfold world_corners. destruct (bound_box obj); [discriminate|]. discriminate. }
  split.
  - apply (is_least_drop_seed lit_1e38); auto.
    intros c0 Hc0. now apply (within_seeds_axis _ index c0 Hi Hw).
  - apply (is_greatest_drop_seed (float_neg lit_1e38)); auto.
    intros c0 Hc0. now apply (within_seeds_axis _ index c0 Hi Hw).
Qed.

End Bounds.

(** ** What an export does to the world *)

(** A loop in [M] keeps, whatever its outcome, what every body keeps. *)
Lemma foldM_keeps {A St} (f : St -> A -> M St) (P : world -> Prop) (l : list A) :
  (forall s x w, P w -> P (f s x w).1) ->
  forall s w, P w -> P (foldM f l s w).1.
Proof.
  intros Hkeep. induction l as [|x l IH]; intros s w HP; cbn [foldM].
  - exact HP.
  - unfold_monad. specialize (Hkeep s x w HP).
    destruct (f s x w) as [w1 [s1|e]]; simpl in Hkeep |- *; auto.
Qed.

(** A loop in [M] that returns carries an invariant of the items processed
    so far over the whole list. *)
Lemma foldM_prefix {A St} (f : St -> A -> M St)
    (Inv : list A -> St -> world -> Prop) (l : list A) :
  (forall pre a s w w' s',
      Inv pre s w -> f s a w = (w', Ok s') -> Inv (pre ++ [a]) s' w') ->
  forall pre s w w' s',
    Inv pre s w -> foldM f l s w = (w', Ok s') -> Inv (pre ++ l) s' w'.
Proof.
  intros Hstep. induction l as [|a l IH]; intros pre s w w' s' Hinv Hrun;
    cbn [foldM] in Hrun.
  - injection Hrun as <- <-. now rewrite app_nil_r.
  - unfold_monad. destruct (f s a w) as [w1 [s1|e]] eqn:Hf; [|discriminate].
    rewrite (cons_middle a pre l), app_assoc. eapply IH; eauto.
Qed.

Lemma create_rendernode_keeps (source : BObject) (material : ref)
    (options : gmap string bool) (w : world) :
  files (create_rendernode source material options w).1 = files w
  /\ heap (create_rendernode source material options w).1 = heap w.
Proof.
  rewrite create_rendernode_unfold. cbv zeta.
  destruct (tessface_uv_active _); [|auto].
  destruct (flatten _ _) as [[vs idx]|]; auto.
Qed.

Lemma build_materialMap_keeps (ms : list (option BMaterial)) (w : world) :
  files (build_materialMap ms w).1 = files w.
Proof.
  unfold build_materialMap.
  apply (foldM_keeps _ (fun w1 => files w1 = files w)); [|reflexivity].
  intros s m w1 HP. unfold_monad.
  destruct (material_name m); simpl; [|assumption].
  destruct m as [m|]; simpl; [|assumption].
  destruct (create_material m); simpl; assumption.
Qed.

Lemma number_materials_keeps (materialMap : gmap string ref)
    (ms : list (option BMaterial)) (w : world) :
  files (number_materials materialMap ms w).1 = files w.
Proof.
  unfold number_materials.
  apply (foldM_keeps _ (fun w1 => files w1 = files w)); [|reflexivity].
  intros s [i bMat] w1 HP. unfold_monad.
  destruct (material_name bMat); simpl; [|assumption].
  destruct (py_getitem materialMap _); simpl; assumption.
Qed.

Lemma build_renderNodes_keeps (materialMap : gmap string ref)
    (options : gmap string bool) (objs : list BObject) (w : world) :
  files (build_renderNodes materialMap options objs w).1 = files w.
Proof.
  unfold build_renderNodes.
  apply (foldM_keeps _ (fun w1 => files w1 = files w)); [|reflexivity].
  intros s obj w1 HP. unfold_monad.
  destruct (py_index _ _); simpl; [|assumption].
  destruct (material_name _); simpl; [|assumption].
  destruct (py_getitem materialMap _) as [r|]; simpl; [|assumption].
  destruct (create_rendernode_keeps obj r options w1) as [Hf _].
  destruct (create_rendernode obj r options w1) as [w2 [node|e]];
    simpl in Hf |- *; congruence.
Qed.

Lemma build_nodes_keeps (rns : list BuiltNode) (w : world) :
  (build_nodes rns w).1 = w.
Proof.
  unfold build_nodes.
  apply (foldM_keeps _ (fun w1 => w1 = w)); [|reflexivity].
  intros [ns done] rn w1 ->. unfold resolve_node, material_index, deref.
  unfold_monad.
  destruct (rn_parent rn); simpl;
    (destruct (heap w !! rn_material rn) as [mat|]; [|reflexivity]);
    destruct (mat_index mat); reflexivity.
Qed.

Lemma mapM_deref_keeps (refs : list ref) (w : world) :
  (mapM deref refs w).1 = w.
Proof.
  induction refs as [|r refs IH]; cbn [mapM]; unfold_monad; [reflexivity|].
  unfold deref at 1. destruct (heap w !! r); [|reflexivity].
  destruct (mapM deref refs w) as [w1 [ms|e]]; simpl in IH |- *; assumption.
Qed.

(** X2.  Whatever goes wrong while the materials, the render nodes, the
    node table or the bounds are assembled goes wrong before the output
    file is opened: when [write_file] raises, the files are as they were.
    (The three calls on the writer are events; they are the last steps and
    are not modelled as failing.) *)
Theorem write_file_raises_before_output (scene : list BObject) (filename : string)
    (options : gmap string bool) (w w' : world) (e : exn) :
  write_file scene filename options w = (w', Raise e) -> files w' = files w.
Proof.
  unfold write_file. set (objs := filter _ scene). unfold_monad.
  destruct (first_materials objs) as [ms|]; [|now intros [= <- _]].
  pose proof (build_materialMap_keeps ms w) as H1.
  destruct (build_materialMap ms w) as [w1 [mm|]]; simpl in H1;
    [|now intros [= <- _]].
  pose proof (number_materials_keeps mm ms w1) as H2.
  destruct (number_materials mm ms w1) as [w2 [refs|]]; simpl in H2;
    [|intros [= <- _]; congruence].
  pose proof (build_renderNodes_keeps mm options objs w2) as H3.
  destruct (build_renderNodes mm options objs w2) as [w3 [rns|]]; simpl in H3;
    [|intros [= <- _]; congruence].
  pose proof (build_nodes_keeps rns w3) as H4.
  destruct (build_nodes rns w3) as [w4 [[ns out]|]]; simpl in H4; subst w4;
    [|intros [= <- _]; congruence].
  destruct (calculate_world_bounds scene) as [[bmin bmax]|];
    [|intros [= <- _]; congruence].
  pose proof (mapM_deref_keeps refs w3) as H5.
  destruct (mapM deref refs w3) as [w5 [mats|]]; simpl in H5; subst w5;
    [|intros [= <- _]; congruence].
  discriminate.
Qed.

(** ** The stages of [write_file], one by one *)

Lemma create_material_name (source : BMaterial) (mat : Material) :
  create_material source = Ok mat ->
  mat_name mat = bmat_name source /\ mat_index mat = None.
Proof.
  unfold create_material. destruct (negb _); [discriminate|]. unfold_monad.
  destruct (py_index _ _) as [slot|]; [|discriminate].
  destruct (create_texture slot) as [tex|]; [|discriminate].
  intros [= <-]. auto.
Qed.

Lemma first_materials_Forall2 (objs : list BObject) (ms : list (option BMaterial)) :
  first_materials objs = Ok ms ->
  Forall2 (fun obj m => material_slots obj !! 0%nat = Some m) objs ms.
Proof.
  unfold first_materials. revert ms.
  induction objs as [|obj objs IH]; intros ms Hrun; cbn [mapM] in Hrun.
  - injection Hrun as <-. constructor.
  - unfold_monad. unfold py_index in Hrun at 1.
    destruct (material_slots obj !! 0%nat) as [m|] eqn:Hm; [|discriminate].
    destruct (mapM _ objs) as [ms'|]; [|discriminate].
    injection Hrun as <-. constructor; auto.
Qed.

(** The material map: a Material object is created for every item; every
    name of the map refers to an object of that name. *)
Lemma build_materialMap_spec (ms : list (option BMaterial)) (w w1 : world)
    (materialMap : gmap string ref) :
  build_materialMap ms w = (w1, Ok materialMap) ->
  same_outside w w1
  /\ length (heap w1) = (length (heap w) + length ms)%nat
  /\ forall nm r, materialMap !! nm = Some r ->
       exists mat, heap w1 !! r = Some mat /\ mat_name mat = nm.
Proof.
  intros Hrun. unfold build_materialMap in Hrun.
  apply (foldM_prefix _ (fun pre (mm : gmap string ref) w1 =>
           same_outside w w1
           /\ length (heap w1) = (length (heap w) + length pre)%nat
           /\ forall nm r, mm !! nm = Some r ->
                exists mat, heap w1 !! r = Some mat /\ mat_name mat = nm)
           ms) with (pre := []) in Hrun.
  - exact Hrun.
  - clear. intros pre m mm w0 w' mm' (Hsame & Hlen & Hmap) Hstep. unfold_monad.
    destruct m as [src|]; [|discriminate]. simpl in Hstep.
    destruct (create_material src) as [mat|] eqn:Hmat; [|discriminate].
    simpl in Hstep. injection Hstep as <- <-. simpl.
    apply create_material_name in Hmat as [Hname _].
    split; [exact Hsame|]. split; [rewrite !length_app; simpl; lia|].
    intros nm r Hr. destruct (decide (bmat_name src = nm)) as [<-|Hne].
    + rewrite lookup_insert_eq in Hr. injection Hr as <-.
      exists mat. split; [|assumption]. apply list_lookup_middle. reflexivity.
    + rewrite lookup_insert_ne in Hr by assumption.
      destruct (Hmap nm r Hr) as (mat' & Hm' & Hn'). exists mat'.
      split; [|assumption]. now apply lookup_app_l_Some.
  - split; [repeat split|]. split; [simpl; lia|].
    intros nm r Hr. rewrite lookup_empty in Hr. discriminate.
Qed.

Lemma mapM_deref_Forall2 (refs : list ref) (w w' : world) (mats : list Material) :
  mapM deref refs w = (w', Ok mats) ->
  Forall2 (fun r mat => heap w !! r = Some mat) refs mats.
Proof.
  revert w' mats; induction refs as [|r refs IH]; intros w' mats Hrun;
    cbn [mapM] in Hrun; unfold_monad.
  - injection Hrun as _ <-. constructor.
  - unfold deref at 1 in Hrun. destruct (heap w !! r) as [mat|] eqn:Hr;
      [|discriminate].
    destruct (mapM deref refs w) as [w1 [ms|e]] eqn:Hrest; [|discriminate].
    injection Hrun as _ <-. constructor; eauto.
Qed.

(** Numbering the materials, from any point of the loop on. *)
Lemma number_loop (materialMap : gmap string ref) (ms : list (option BMaterial)) :
  forall (start : nat) (mats : list ref) (w w2 : world) (refs : list ref),
    length mats = start ->
    names_resolve materialMap w ->
    table_numbered mats w ->
    foldM (fun (materials : list ref) ib =>
             let '(i, bMat) := ib in
             name ← lift (material_name bMat);
             mat ← lift (py_getitem materialMap name);
             _ ← assign_index mat i;
             mret (materials ++ [mat]))
          (zip (seq start (length ms)) ms) mats w = (w2, Ok refs) ->
    same_outside w w2
    /\ length (heap w2) = length (heap w)
    /\ names_resolve materialMap w2
    /\ table_numbered refs w2
    /\ exists rs, refs = mats ++ rs /\ Forall2 (entry_of materialMap) ms rs.
Proof.
  unfold names_resolve, table_numbered.
  induction ms as [|m ms IH]; intros start mats w w2 refs Hlen Hnames Hnum Hrun.
  - cbn in Hrun. injection Hrun as <- <-.
    split; [repeat split|]. split; [reflexivity|]. split; [assumption|].
    split; [assumption|]. exists []. rewrite app_nil_r. split; [reflexivity|constructor].
  - cbn [length seq zip zip_with foldM] in Hrun. unfold_monad.
    destruct m as [src|]; [|discriminate]. simpl in Hrun.
    unfold py_getitem in Hrun at 1.
    destruct (materialMap !! bmat_name src) as [r|] eqn:Hr; [|discriminate].
    simpl in Hrun.
    destruct (Hnames _ _ Hr) as (mat & Hmat & Hname).
    apply IH in Hrun as (Hsame & Hheap & Hnames2 & Hnum2 & rs & -> & Hall).
    + simpl in Hheap. split; [exact Hsame|].
      split; [now rewrite Hheap, length_alter|].
      split; [assumption|]. split; [assumption|].
      exists (r :: rs). rewrite <- app_assoc. split; [reflexivity|].
      constructor; [|assumption]. exists src. auto.
    + rewrite length_app. simpl. lia.
    + intros nm r' Hr'. destruct (Hnames nm r' Hr') as (mat' & Hm' & Hn').
      cbn [heap]. unfold ref in *.
      destruct (decide (r = r')) as [<-|Hne].
      * rewrite list_lookup_alter_eq, Hm'. simpl. eauto.
      * rewrite list_lookup_alter_ne by assumption. eauto.
    + intros r' Hin. cbn [heap]. unfold ref in *.
      destruct (decide (r = r')) as [<-|Hne].
      * exists (set_index start mat), start.
        rewrite list_lookup_alter_eq, Hmat. split; [reflexivity|].
        split; [reflexivity|]. apply list_lookup_middle. auto.
      * apply elem_of_app in Hin as [Hin|Hin].
        2:{ apply list_elem_of_singleton in Hin. congruence. }
        destruct (Hnum r' Hin) as (mat' & k & Hm' & Hk & Hpos).
        exists mat', k. rewrite list_lookup_alter_ne by assumption.
        split; [assumption|]. split; [assumption|].
        now apply lookup_app_l_Some.
Qed.

Lemma number_materials_spec (materialMap : gmap string ref)
    (ms : list (option BMaterial)) (w w2 : world) (refs : list ref) :
  names_resolve materialMap w ->
  number_materials materialMap ms w = (w2, Ok refs) ->
  length (heap w2) = length (heap w)
  /\ names_resolve materialMap w2
  /\ table_numbered refs w2
  /\ Forall2 (entry_of materialMap) ms refs.
Proof.
  intros Hnames Hrun. unfold number_materials, enumerate in Hrun.
  apply number_loop in Hrun as (_ & Hheap & Hnames2 & Hnum & rs & -> & Hall);
    auto.
  intros r Hin. inversion Hin.
Qed.

(** The render nodes: one for each mesh object, in order. *)
Lemma build_renderNodes_spec (materialMap : gmap string ref)
    (options : gmap string bool) (objs : list BObject) (w w' : world)
    (rns : list BuiltNode) :
  build_renderNodes materialMap options objs w = (w', Ok rns) ->
  heap w' = heap w /\ Forall2 (built_from materialMap options) objs rns.
Proof.
  intros Hrun. unfold build_renderNodes in Hrun.
  apply (foldM_prefix _ (fun pre (acc : list BuiltNode) w1 =>
           heap w1 = heap w /\ Forall2 (built_from materialMap options) pre acc)
           objs) with (pre := []) in Hrun.
  - exact Hrun.
  - clear. intros pre obj acc w0 w1 acc' [Hheap Hall] Hstep. unfold_monad.
    unfold py_index in Hstep at 1.
    destruct (material_slots obj !! 0%nat) as [m|] eqn:Hm; [|discriminate].
    destruct m as [src|]; [|discriminate]. simpl in Hstep.
    unfold py_getitem in Hstep at 1.
    destruct (materialMap !! bmat_name src) as [r|] eqn:Hr; [|discriminate].
    simpl in Hstep. rewrite create_rendernode_unfold in Hstep. cbv zeta in Hstep.
    destruct (tessface_uv_active _) as [uv_tex|] eqn:Huv; [|discriminate].
    destruct (flatten _ uv_tex) as [[vs idx]|] eqn:Hfl; [|discriminate].
    injection Hstep as <- <-. split; [exact Hheap|].
    apply Forall2_app; [assumption|]. constructor; [|constructor].
    exists src, uv_tex. cbv zeta. simpl. auto 10.
  - split; [reflexivity|constructor].
Qed.

(** The node loop, as far as names, buffers and materials go. *)
Lemma build_nodes_spec (rns : list BuiltNode) (w w' : world)
    (nodes : list Node) (out : list FinalNode) :
  build_nodes rns w = (w', Ok (nodes, out)) ->
  Forall2 (resolved_from w) rns out.
Proof.
  intros Hrun. unfold build_nodes in Hrun.
  apply (foldM_prefix _ (fun pre (st : list Node * list FinalNode) w1 =>
           w1 = w /\ Forall2 (resolved_from w) pre st.2)
           rns) with (pre := []) in Hrun.
  - apply Hrun.
  - clear. intros pre rn [ns done] w0 w1 st' [-> Hall] Hstep. simpl in Hall.
    unfold resolve_node, material_index, deref in Hstep. unfold_monad.
    destruct (rn_parent rn); simpl in Hstep;
      (destruct (heap w !! rn_material rn) as [mat|] eqn:Hmat; [|discriminate]);
      (destruct (mat_index mat) as [i|] eqn:Hi; [|discriminate]);
      injection Hstep as <- <-; simpl; (split; [reflexivity|]);
      (apply Forall2_app; [assumption|]); (constructor; [|constructor]);
      repeat split; simpl; eauto.
  - split; [reflexivity|constructor].
Qed.

(** X4.  In the file [write_file] writes, the render node of the [i]-th
    mesh object carries the object's name, and its material index points
    into the material table at the Material built for the name of the
    object's material: that entry carries this very index, and it is also
    the entry at position [i].  The index depends on the name of the
    material only, so objects whose materials have the same name get the
    same index. *)
Theorem material_indices_resolve (scene : list BObject) (filename : string)
    (options : gmap string bool) (w w' : world) :
  write_file scene filename options w = (w', Ok tt) ->
  exists (file : EDMFile) (index_of : string -> nat),
    written w' = written w ++ [file]
    /\ forall (i : nat) (obj : BObject),
        filter (fun x => ob_type x = "MESH") scene !! i = Some obj ->
        exists (src : BMaterial) (rn : FinalNode) (entry : Material),
          material_slots obj !! 0%nat = Some (Some src)
          /\ renderNodes file !! i = Some rn
          /\ rn_name rn = ob_name obj
          /\ rn_material rn = index_of (bmat_name src)
          /\ materials (root file) !! i = Some entry
          /\ materials (root file) !! rn_material rn = Some entry
          /\ mat_name entry = bmat_name src
          /\ mat_index entry = Some (rn_material rn).
Proof.
  unfold write_file. set (objs := filter _ scene). intros Hrun. unfold_monad.
  destruct (first_materials objs) as [ms|] eqn:Hms; [|discriminate].
  apply first_materials_Forall2 in Hms.
  pose proof (build_materialMap_keeps ms w) as Hf1.
  destruct (build_materialMap ms w) as [w1 [mm|]] eqn:Hmm; [|discriminate].
  apply build_materialMap_spec in Hmm as (_ & _ & Hnames).
  pose proof (number_materials_keeps mm ms w1) as Hf2.
  destruct (number_materials mm ms w1) as [w2 [refs|]] eqn:Hnum; [|discriminate].
  apply number_materials_spec in Hnum as (_ & Hnames2 & Hnumbered & Hentries);
    [|exact Hnames].
  pose proof (build_renderNodes_keeps mm options objs w2) as Hf3.
  destruct (build_renderNodes mm options objs w2) as [w3 [rns|]] eqn:Hrn;
    [|discriminate].
  simpl in Hf1, Hf2, Hf3.
  apply build_renderNodes_spec in Hrn as [Hheap Hbuilt].
  pose proof (build_nodes_keeps rns w3) as Hk4.
  destruct (build_nodes rns w3) as [w4 [[ns out]|]] eqn:Hbn; [|discriminate].
  simpl in Hk4. subst w4. apply build_nodes_spec in Hbn.
  destruct (calculate_world_bounds scene) as [[bmin bmax]|]; [|discriminate].
  pose proof (mapM_deref_keeps refs w3) as Hk5.
  destruct (mapM deref refs w3) as [w5 [mats|]] eqn:Hd; [|discriminate].
  simpl in Hk5. subst w5. apply mapM_deref_Forall2 in Hd.
  unfold file_do in Hrun. simpl in Hrun. injection Hrun as <-.
  eexists.
  exists (fun nm => match mm !! nm with
                    | Some r => match heap w2 !! r with
                                | Some mat => default 0%nat (mat_index mat)
                                | None => 0%nat
                                end
                    | None => 0%nat
                    end).
  split.
  { unfold written. cbn [files]. rewrite !omap_app. cbn [omap list_omap].
    rewrite !app_nil_r, Hf3, Hf2, Hf1. reflexivity. }
  cbn [renderNodes root materials]. intros i obj Hi.
  destruct (Forall2_lookup_l _ _ _ _ _ Hms Hi) as (m & Hmi & Hslot).
  destruct (Forall2_lookup_l _ _ _ _ _ Hentries Hmi) as (r & Hri & src & -> & Hr).
  destruct (Forall2_lookup_l _ _ _ _ _ Hbuilt Hi)
    as (rn0 & Hrn0 & src0 & uv_tex & Hslot0 & Hr0 & Hname0 & _).
  assert (src0 = src) by congruence. subst src0.
  assert (Hmat0 : rn_material rn0 = r) by congruence.
  destruct (Forall2_lookup_l _ _ _ _ _ Hbn Hrn0)
    as (rn & Hout & Hname & _ & _ & mat & Hmat & Hidx).
  destruct (Forall2_lookup_l _ _ _ _ _ Hd Hri) as (entry & Hentry & Hderef).
  rewrite Hmat0, Hheap in Hmat. rewrite Hheap in Hderef.
  assert (entry = mat) by congruence. subst entry.
  destruct (Hnumbered r) as (mat' & k & Hmat' & Hk & Hpos).
  { eapply list_elem_of_lookup_2; eauto. }
  assert (mat' = mat) by congruence. subst mat'.
  assert (k = rn_material rn) by congruence. subst k.
  destruct (Forall2_lookup_l _ _ _ _ _ Hd Hpos) as (entry & Hentry' & Hderef').
  rewrite Hheap in Hderef'.
  assert (entry = mat) by congruence. subst entry.
  destruct (Hnames2 _ _ Hr) as (mat'' & Hmat'' & Hnm).
  assert (mat'' = mat) by congruence. subst mat''.
  exists src, rn, mat. rewrite Hr, Hmat, Hidx. simpl.
  repeat split; auto; congruence.
Qed.

Lemma omap_same_parent (rns : list BuiltNode) (parent : option Node) :
  Forall (fun rn => rn_parent rn = parent) rns ->
  omap rn_parent rns
  = match parent with
    | Some p => replicate (length rns) p
    | None => []
    end.
Proof.
  induction 1 as [|rn rns Hrn _ IH]; cbn [omap list_omap length replicate].
  - now destruct parent.
  - rewrite Hrn, IH. now destruct parent.
Qed.

(** X5.  In the file [write_file] writes, the render node of the [i]-th
    mesh object holds the buffers the flattener makes of the object's
    mesh: the mesh [to_mesh] gives for the [apply_modifiers] option
    (false when the option is absent), transformed by the object's local
    matrix, with its active UV layer.  [create_rendernode] never sets a
    parent, so every render node has the parent a fresh [RenderNode()]
    has: if that is [None], the node table is the root alone and every
    parent index is 0; otherwise the table holds that parent once for each
    render node, and the [i]-th render node has the parent index [i+1]. *)
Theorem written_render_nodes (scene : list BObject) (filename : string)
    (options : gmap string bool) (w w' : world) :
  write_file scene filename options w = (w', Ok tt) ->
  exists file : EDMFile,
    written w' = written w ++ [file]
    /\ nodes file
       = Node_new :: match RenderNode_parent with
                     | Some p =>
                         replicate
                           (length (filter (fun x => ob_type x = "MESH") scene)) p
                     | None => []
                     end
    /\ forall (i : nat) (obj : BObject),
        filter (fun x => ob_type x = "MESH") scene !! i = Some obj ->
        let mesh := mesh_transform (matrix_local obj)
                      (to_mesh obj (default false (options !! "apply_modifiers"))) in
        exists (rn : FinalNode) (uv_tex : list MeshTextureFace),
          renderNodes file !! i = Some rn
          /\ rn_name rn = ob_name obj
          /\ tessface_uv_active mesh = Some uv_tex
          /\ flatten mesh uv_tex = Ok (vertexData rn, indexData rn)
          /\ rn_parent rn = match RenderNode_parent with
                            | Some _ => S i
                            | None => 0%nat
                            end.
Proof.
  unfold write_file. set (objs := filter _ scene). intros Hrun. unfold_monad.
  destruct (first_materials objs) as [ms|] eqn:Hms; [|discriminate].
  pose proof (build_materialMap_keeps ms w) as Hf1.
  destruct (build_materialMap ms w) as [w1 [mm|]] eqn:Hmm; [|discriminate].
  pose proof (number_materials_keeps mm ms w1) as Hf2.
  destruct (number_materials mm ms w1) as [w2 [refs|]] eqn:Hnum; [|discriminate].
  pose proof (build_renderNodes_keeps mm options objs w2) as Hf3.
  destruct (build_renderNodes mm options objs w2) as [w3 [rns|]] eqn:Hrn;
    [|discriminate].
  simpl in Hf1, Hf2, Hf3.
  apply build_renderNodes_spec in Hrn as [Hheap Hbuilt].
  pose proof (build_nodes_keeps rns w3) as Hk4.
  destruct (build_nodes rns w3) as [w4 [[ns out]|]] eqn:Hbn; [|discriminate].
  simpl in Hk4. subst w4. pose proof (build_nodes_spec _ _ _ _ _ Hbn) as Hres.
  destruct (calculate_world_bounds scene) as [[bmin bmax]|]; [|discriminate].
  pose proof (mapM_deref_keeps refs w3) as Hk5.
  destruct (mapM deref refs w3) as [w5 [mats|]] eqn:Hd; [|discriminate].
  simpl in Hk5. subst w5.
  unfold file_do in Hrun. simpl in Hrun. injection Hrun as <-.
  assert (Hnumd : Forall (material_numbered w3) rns).
  { apply Forall_forall. intros rn Hin.
    apply list_elem_of_lookup in Hin as [k Hk].
    destruct (Forall2_lookup_l _ _ _ _ _ Hres Hk)
      as (rn' & _ & _ & _ & _ & mat & Hmat & Hidx).
    exists mat, (rn_material rn'). auto. }
  assert (Hpar : Forall (fun rn => rn_parent rn = RenderNode_parent) rns).
  { apply Forall_forall. intros rn Hin.
    apply list_elem_of_lookup in Hin as [k Hk].
    destruct (Forall2_lookup_r _ _ _ _ _ Hbuilt Hk)
      as (obj & _ & src & uv_tex & _ & _ & _ & Hp & _).
    exact Hp. }
  destruct (resolve_loop rns w3 Hnumd [Node_new] []) as (out' & Hrun' & _ & Hall).
  unfold build_nodes in Hbn. rewrite Hbn in Hrun'.
  injection Hrun' as -> ->.
  pose proof (Forall2_length _ _ _ Hbuilt) as Hlen.
  eexists. split.
  { unfold written. cbn [files]. rewrite !omap_app. cbn [omap list_omap].
    rewrite !app_nil_r, Hf3, Hf2, Hf1. reflexivity. }
  cbn [nodes renderNodes]. split.
  { rewrite (omap_same_parent rns _ Hpar), Hlen. reflexivity. }
  intros i obj Hi. cbv zeta.
  destruct (Forall2_lookup_l _ _ _ _ _ Hbuilt Hi)
    as (rn0 & Hrn0 & src & uv_tex & _ & _ & Hname0 & Hp0 & Huv & Hfl).
  destruct (Forall2_lookup_l _ _ _ _ _ Hres Hrn0)
    as (rn & Hout & Hname & Hvs & Hidx & _).
  destruct (Hall i rn0 Hrn0) as (rn1 & Hout1 & Hparent).
  simpl in Hout, Hout1. unfold FinalNode in *. rewrite Hout in Hout1.
  injection Hout1 as <-.
  exists rn, uv_tex. split; [exact Hout|]. split; [congruence|].
  split; [exact Huv|]. split; [now rewrite Hvs, Hidx|].
  rewrite Hparent, Hp0.
  destruct RenderNode_parent as [p|] eqn:HP; [|reflexivity].
  rewrite (omap_same_parent (take i rns) (Some p)).
  - rewrite length_replicate, length_take. simpl.
    apply lookup_lt_Some in Hrn0. lia.
  - apply Forall_take. exact Hpar.
Qed.

Lemma filter_fresh (l : list nat) (id : nat) :
  Forall (fun x => (x < id)%nat) l ->
  filter (fun x => x <> id) (l ++ [id]) = l.
Proof.
  intros Hl. rewrite filter_app, filter_cons_False, filter_nil, app_nil_r by auto.
  induction Hl as [|x l Hx _ IH]; [reflexivity|].
  rewrite filter_cons_True by lia. now rewrite IH.
Qed.

Lemma build_renderNodes_meshes (materialMap : gmap string ref)
    (options : gmap string bool) (objs : list BObject) (w w' : world)
    (rns : list BuiltNode) :
  Forall (fun id => (id < mesh_serial w)%nat) (data_meshes w) ->
  build_renderNodes materialMap options objs w = (w', Ok rns) ->
  mesh_serial w' = (mesh_serial w + length objs)%nat
  /\ data_meshes w' = data_meshes w.
Proof.
  intros Hfresh Hrun. unfold build_renderNodes in Hrun.
  eapply (foldM_returns _ (fun n (_ : list BuiltNode) w1 =>
                             mesh_serial w1 = (mesh_serial w + n)%nat
                             /\ data_meshes w1 = data_meshes w))
    with (n := 0%nat) in Hrun.
  - exact Hrun.
  - intros n s obj w0 w1 s' [Hserial Hdata] Hstep. unfold_monad.
    destruct (py_index _ _); [|discriminate].
    destruct (material_name _); [|discriminate].
    destruct (py_getitem materialMap _); [|discriminate].
    rewrite create_rendernode_unfold in Hstep. cbv zeta in Hstep.
    destruct (tessface_uv_active _); [|discriminate].
    destruct (flatten _ _) as [[vs idx]|]; [|discriminate].
    injection Hstep as <- <-. cbn [mesh_serial data_meshes].
    split; [lia|]. rewrite filter_fresh; [assumption|].
    rewrite Hdata. eapply Forall_impl; [exact Hfresh|]. simpl. lia.
  - split; [lia|reflexivity].
Qed.

(** X3.  An export that returns has called [to_mesh] once for each mesh
    object and has removed every mesh it created: the mesh data is as it
    was before.  It has created one Material object for each mesh object,
    also when several objects share a material. *)
Theorem write_file_resources (scene : list BObject) (filename : string)
    (options : gmap string bool) (w w' : world) :
  Forall (fun id => (id < mesh_serial w)%nat) (data_meshes w) ->
  write_file scene filename options w = (w', Ok tt) ->
  data_meshes w' = data_meshes w
  /\ mesh_serial w'
     = (mesh_serial w + length (filter (fun x => ob_type x = "MESH") scene))%nat
  /\ length (heap w')
     = (length (heap w) + length (filter (fun x => ob_type x = "MESH") scene))%nat.
Proof.
  unfold write_file. set (objs := filter _ scene). intros Hfresh Hrun.
  unfold_monad.
  destruct (first_materials objs) as [ms|] eqn:Hms; [|discriminate].
  apply mapM_length in Hms.
  destruct (build_materialMap ms w) as [w1 [mm|]] eqn:Hmm; [|discriminate].
  apply build_materialMap_spec in Hmm as ((_ & Hd1 & Hs1) & Hh1 & Hnames).
  destruct (number_materials mm ms w1) as [w2 [refs|]] eqn:Hnum; [|discriminate].
  pose proof (number_materials_length _ _ _ _ _ Hnum) as (_ & _ & Hd2 & Hs2).
  apply number_materials_spec in Hnum as (Hh2 & _); [|exact Hnames].
  destruct (build_renderNodes mm options objs w2) as [w3 [rns|]] eqn:Hrn;
    [|discriminate].
  pose proof (build_renderNodes_spec _ _ _ _ _ _ Hrn) as [Hh3 _].
  apply build_renderNodes_meshes in Hrn as [Hs3 Hd3].
  2:{ rewrite Hd2, Hd1, Hs2, Hs1. exact Hfresh. }
  pose proof (build_nodes_keeps rns w3) as Hk4.
  destruct (build_nodes rns w3) as [w4 [[ns out]|]]; [|discriminate].
  simpl in Hk4. subst w4.
  destruct (calculate_world_bounds scene) as [[bmin bmax]|]; [|discriminate].
  pose proof (mapM_deref_keeps refs w3) as Hk5.
  destruct (mapM deref refs w3) as [w5 [mats|]]; [|discriminate].
  simpl in Hk5. subst w5.
  unfold file_do in Hrun. simpl in Hrun. injection Hrun as <-.
  cbn [data_meshes mesh_serial heap].
  split; [congruence|]. split; [congruence|]. rewrite Hh3, Hh2, Hh1. lia.
Qed.

(** ** More on texture names *)

Lemma has_char_substring (c : ascii) (s : string) (n m : nat) :
  has_char c (String.substring n m s) -> has_char c s.
Proof.
  unfold has_char. revert n m. induction s as [|a s IH]; intros [|n] [|m]; simpl;
    try tauto.
  - intros [->|H]; [now left|right; eauto].
  - intros H; right; eauto.
  - intros H; right; eauto.
Qed.

Lemma prefix_substring (s : string) (n : nat) :
  String.prefix (String.substring 0 n s) s = true.
Proof.
  revert n. induction s as [|a s IH]; intros [|n]; simpl; auto.
  destruct (ascii_dec a a) as [_|Hne]; [apply IH|contradiction].
Qed.

Lemma prefix_empty (s : string) : String.prefix "" s = true.
Proof. now destruct s. Qed.

Lemma index_dot_None (s : string) :
  String.index 0 "." s = None -> ~ has_char "." s.
Proof.
  unfold has_char. induction s as [|b s IH];
    cbn [String.index String.prefix list_ascii_of_string]; [simpl; tauto|].
  destruct (ascii_dec "." b) as [_|Hne]; [rewrite prefix_empty; discriminate|].
  destruct (String.index 0 "." s); [discriminate|].
  intros _ [Hb|Hin]; [congruence|now apply IH].
Qed.

Lemma index_dot_Some (s : string) (n : nat) :
  String.index 0 "." s = Some n -> ~ has_char "." (String.substring 0 n s).
Proof.
  unfold has_char. revert n. induction s as [|b s IH]; intros n;
    cbn [String.index String.prefix]; [discriminate|].
  destruct (ascii_dec "." b) as [_|Hne].
  - rewrite prefix_empty. intros [= <-]. simpl. tauto.
  - destruct (String.index 0 "." s) as [k|]; [|discriminate].
    intros [= <-]. simpl. intros [Hb|Hin]; [congruence|]. now apply (IH k).
Qed.

(** Where [rfind] stops: either the character does not occur, or nothing
    after the index found holds it. *)
Lemma rfind_from_spec (c : ascii) (s : string) :
  forall i last : Z, last < i ->
    (rfind_from c s i last = last /\ ~ has_char c s)
    \/ (i <= rfind_from c s i last < i + Z.of_nat (String.length s)
        /\ forall m, ~ has_char c
                       (String.substring (Z.to_nat (rfind_from c s i last + 1 - i))
                                         m s)).
Proof.
  induction s as [|a s IH]; intros i last Hlt; cbn [rfind_from].
  - left. split; [reflexivity|]. unfold has_char. simpl. tauto.
  - destruct (IH (i + 1) (if Ascii.eqb a c then i else last)) as [[Hk Hno]|[Hk Hno]].
    + destruct (Ascii.eqb a c); lia.
    + destruct (Ascii.eqb_spec a c) as [->|Hne].
      * right. rewrite Hk. split; [cbn [String.length]; lia|].
        intros m. replace (Z.to_nat (i + 1 - i)) with 1%nat by lia.
        cbn [String.substring]. intros Hin. apply Hno.
        now apply has_char_substring in Hin.
      * left. split; [assumption|]. unfold has_char in *. simpl.
        intros [Ha|Hin]; [congruence|contradiction].
    + right. split; [cbn [String.length]; lia|]. intros m.
      replace (Z.to_nat (rfind_from c s (i + 1) (if Ascii.eqb a c then i else last)
                         + 1 - i))
        with (S (Z.to_nat (rfind_from c s (i + 1) (if Ascii.eqb a c then i else last)
                           + 1 - (i + 1)))) by lia.
      cbn [String.substring]. apply Hno.
Qed.

Lemma basename_no_slash (p : string) : ~ has_char "/" (os_path_basename p).
Proof.
  unfold os_path_basename, py_slice_from, py_rfind.
  destruct (rfind_from_spec "/" p 0 (-1)) as [[Hk Hno]|[Hk Hno]]; [lia| |].
  - rewrite Hk. intros Hin. apply Hno. now apply has_char_substring in Hin.
  - replace (rfind_from "/" p 0 (-1) + 1)
      with (rfind_from "/" p 0 (-1) + 1 - 0) by lia.
    apply Hno.
Qed.

(** X6.  The name [create_texture] gives a texture is a prefix of the
    base name of the image path, and it holds neither a dot nor a slash:
    it stops before the first dot when there is one. *)
Theorem texture_name_is_bare (source : TextureSlot) (tex : Texture) :
  create_texture source = Ok tex ->
  String.prefix (tex_name tex) (os_path_basename (tex_filepath source)) = true
  /\ ~ has_char "." (tex_name tex)
  /\ ~ has_char "/" (tex_name tex).
Proof.
  unfold create_texture. unfold_monad.
  set (base := os_path_basename (tex_filepath source)).
  intros Hrun.
  assert (Hname : tex_name tex = py_slice_to base (py_find base ".")).
  { destruct (use_map_color_diffuse source);
      [|destruct (use_map_normal source);
        [|destruct (use_map_specular source); [|discriminate]]];
      now injection Hrun as <-. }
  rewrite Hname. clear Hrun Hname. split; [|split].
  - unfold py_slice_to. apply prefix_substring.
  - unfold py_find. destruct (String.index 0 "." base) as [n|] eqn:Hi.
    + rewrite py_slice_to_nonneg. now apply index_dot_Some.
    + rewrite py_slice_to_minus_one. intros Hin.
      apply has_char_substring in Hin. now apply (index_dot_None base).
  - unfold py_slice_to. intros Hin. apply has_char_substring in Hin.
    now apply (basename_no_slash (tex_filepath source)).
Qed.

(** ** More on the material builder *)



(** ** More on the geometry flattener *)

Lemma py_index_offsets_inv (n len i x : nat) :
  py_index ((fun x => (n + x)%nat) <$> seq 0 len) i = Ok x ->
  x = (n + i)%nat /\ (i < len)%nat.
Proof.
  unfold py_index. rewrite list_lookup_fmap.
  destruct (seq 0 len !! i) as [j|] eqn:Hj; [|discriminate].
  apply lookup_seq in Hj as [-> Hlt]. simpl. intros [= <-]. auto.
Qed.

(** What the index loop appends when it returns. *)
Lemma index_loop_shape (n len : nat) (idx r : list nat) :
  foldM (fun acc tri =>
           foldM (fun acc i =>
                    x ← py_index ((fun x => (n + x)%nat) <$> seq 0 len) i;
                    mret (acc ++ [x]))
                 tri acc)
        (if Nat.eqb len 3 then [[0; 1; 2]]%nat else [[0; 1; 2]; [2; 3; 0]]%nat)
        idx
  = Ok r ->
  exists tri, r = idx ++ tri
    /\ length tri = (if Nat.eqb len 3 then 3 else 6)%nat
    /\ Forall (fun x => (n <= x < n + len)%nat) tri.
Proof.
  destruct (Nat.eqb len 3); cbn [foldM]; unfold_monad; intros Hrun;
    repeat match type of Hrun with
           | context [py_index ?l ?i] =>
               let E := fresh "E" in
               destruct (py_index l i) eqn:E; [|discriminate];
               apply py_index_offsets_inv in E as [-> ?]
           end;
    injection Hrun as <-; rewrite <- !app_assoc; eexists;
    (split; [reflexivity|]); (split; [reflexivity|]);
    repeat constructor; lia.
Qed.

Lemma flatten_face_counts (mesh : Mesh) (face : MeshTessFace)
    (uvFace : MeshTextureFace) (vs vs' : list (list pynum)) (idx idx' : list nat) :
  flatten_face mesh (vs, idx) (face, uvFace) = Ok (vs', idx') ->
  exists fresh tri,
    vs' = vs ++ fresh /\ idx' = idx ++ tri
    /\ length fresh = length (face_vertices face)
    /\ length tri = (if Nat.eqb (length (face_vertices face)) 3 then 3 else 6)%nat
    /\ Forall (fun x => (x < length vs + length (face_vertices face))%nat) tri.
Proof.
  unfold flatten_face. intros Hrun.
  destruct (foldM (emit_vertex mesh uvFace) _ vs) as [r|] eqn:Hr; [|discriminate].
  rewrite bind_Ok in Hrun.
  destruct (foldM _ _ idx) as [r'|] eqn:Hr'; [|discriminate].
  rewrite bind_Ok in Hrun. injection Hrun as <- <-.
  destruct (emit_loop_shape _ _ _ _ _ Hr) as (fresh & -> & Hlen & _).
  apply index_loop_shape in Hr' as (tri & -> & Hlt & Hin).
  exists fresh, tri. repeat split; auto.
  - rewrite Hlen. unfold enumerate. rewrite length_zip_with, length_seq. lia.
  - eapply Forall_impl; [exact Hin|]. simpl. lia.
Qed.

Lemma flatten_loop_counts (mesh : Mesh)
    (pairs : list (MeshTessFace * MeshTextureFace)) :
  forall (vs vs' : list (list pynum)) (idx idx' : list nat),
    foldM (flatten_face mesh) pairs (vs, idx) = Ok (vs', idx') ->
    length vs' = (length vs + sum_list (corners_of <$> pairs))%nat
    /\ length idx' = (length idx + 3 * sum_list (triangles_of <$> pairs))%nat
    /\ (Forall (fun x => (x < length vs)%nat) idx ->
        Forall (fun x => (x < length vs')%nat) idx').
Proof.
  induction pairs as [|[face uvFace] pairs IH]; intros vs vs' idx idx' Hrun;
    cbn [foldM] in Hrun.
  - injection Hrun as <- <-. cbn. repeat split; auto; lia.
  - destruct (flatten_face mesh (vs, idx) (face, uvFace)) as [[vs1 idx1]|] eqn:Hf;
      [|discriminate].
    rewrite bind_Ok in Hrun.
    apply flatten_face_counts in Hf as (fresh & tri & -> & -> & Hlen & Hlt & Hin).
    apply IH in Hrun as (Hvs & Hidx & Hall).
    rewrite length_app in Hvs, Hidx, Hall.
    rewrite !fmap_cons. cbn [sum_list sum_list_with].
    unfold corners_of at 1. unfold triangles_of at 1. cbn [fst]. unfold id in *.
    split; [rewrite Hvs, Hlen; lia|].
    split; [rewrite Hidx, Hlt; destruct (Nat.eqb _ 3); lia|].
    intros Hold. apply Hall. apply Forall_app. split.
    + eapply Forall_impl; [exact Hold|]. simpl. lia.
    + eapply Forall_impl; [exact Hin|]. simpl. lia.
Qed.

(** X8.  The buffers of a render node [create_rendernode] returns are
    well formed: every index is a position of the vertex buffer, every
    vertex has 9 components, there is one vertex for each corner of each
    face processed (nothing is welded) and three indices for each
    triangle, one triangle for a 3-vertex face and two for any other.
    The node carries the object's name and the material passed in. *)
Theorem rendernode_buffers_wellformed (source : BObject) (material : ref)
    (options : gmap string bool) (w w' : world) (node : BuiltNode) :
  create_rendernode source material options w = (w', Ok node) ->
  let mesh := mesh_transform (matrix_local source)
                (to_mesh source (default false (options !! "apply_modifiers"))) in
  exists uv_tex,
    tessface_uv_active mesh = Some uv_tex
    /\ length (vertexData node)
       = sum_list (corners_of <$> zip (tessfaces mesh) uv_tex)
    /\ length (indexData node)
       = (3 * sum_list (triangles_of <$> zip (tessfaces mesh) uv_tex))%nat
    /\ Forall (fun x => (x < length (vertexData node))%nat) (indexData node)
    /\ Forall (fun vtx => length vtx = 9%nat) (vertexData node)
    /\ rn_name node = ob_name source
    /\ rn_material node = material.
Proof.
  rewrite create_rendernode_unfold. cbv zeta.
  set (mesh := mesh_transform _ _).
  destruct (tessface_uv_active mesh) as [uv_tex|] eqn:Huv; [|discriminate].
  destruct (flatten mesh uv_tex) as [[vs idx]|] eqn:Hfl; [|discriminate].
  intros [= _ <-]. cbn [vertexData indexData rn_name rn_material].
  exists uv_tex. split; [reflexivity|]. unfold flatten in Hfl.
  destruct (flatten_loop_counts _ _ _ _ _ _ Hfl) as (Hvs & Hidx & Hall).
  apply flatten_loop_shape in Hfl as (fresh & Hfresh & Hcorner).
  simpl in Hvs, Hidx, Hfresh. subst fresh.
  split; [exact Hvs|]. split; [exact Hidx|].
  split; [apply Hall; constructor|]. split; [|auto].
  eapply Forall_impl; [exact Hcorner|].
  intros vtx (face & uvFace & _ & i & vi & v & tu & tv & _ & _ & _ & ->).
  reflexivity.
Qed.

Lemma emit_loop_raises (mesh : Mesh) (uvFace : MeshTextureFace)
    (ivs : list (nat * nat)) (vs : list (list pynum)) (e : exn) :
  foldM (emit_vertex mesh uvFace) ivs vs = Raise e -> e = IndexError.
Proof.
  revert vs; induction ivs as [|[i vi] ivs IH]; intros vs Hrun;
    simpl in Hrun; [discriminate|].
  unfold_monad. unfold emit_vertex at 1 in Hrun. unfold py_index in Hrun.
  unfold_monad.
  destruct (mesh_vertices mesh !! vi); [|congruence].
  destruct (uv uvFace !! i); [|congruence].
  eauto.
Qed.

(** X9.  Faces that are neither triangles nor quads.  A face of fewer
    than three vertices makes the flattener raise [IndexError].  A face of
    five or more vertices is accepted: all its corners are emitted, but
    only the two triangles of a quad are written, so that the corners
    after the fourth are never indexed. *)
Theorem flatten_face_other_sizes (mesh : Mesh) (face : MeshTessFace)
    (uvFace : MeshTextureFace) (vs : list (list pynum)) (idx : list nat) :
  ((length (face_vertices face) < 3)%nat ->
   flatten_face mesh (vs, idx) (face, uvFace) = Raise IndexError)
  /\ ((5 <= length (face_vertices face))%nat ->
      Forall (fun vtxIndex => (vtxIndex < length (mesh_vertices mesh))%nat)
             (face_vertices face) ->
      (length (face_vertices face) <= length (uv uvFace))%nat ->
      exists fresh,
        flatten_face mesh (vs, idx) (face, uvFace)
        = Ok (vs ++ fresh,
              idx ++ [length vs; length vs + 1; length vs + 2;
                      length vs + 2; length vs + 3; length vs]%nat)
        /\ length fresh = length (face_vertices face)).
Proof.
  split.
  - intros Hlen. unfold flatten_face.
    destruct (foldM (emit_vertex mesh uvFace) _ vs) as [r|e] eqn:Hr.
    + rewrite bind_Ok.
      destruct (face_vertices face) as [|a [|b [|c l]]]; simpl in Hlen;
        try lia; reflexivity.
    + now rewrite (emit_loop_raises _ _ _ _ _ Hr).
  - intros Hlen Hv Hu.
    destruct (flatten_face_ok mesh face uvFace vs idx) as (fresh & Hrun & Hfresh).
    { repeat split; simpl; auto. lia. }
    exists fresh. split; [|exact Hfresh]. rewrite Hrun. unfold face_indices.
    destruct (Nat.eqb_spec (length (face_vertices face)) 3); [lia|reflexivity].
Qed.

(** ** More on the world bounding box *)

(** [min] and [max] of a list that ends with the running value never
    raise; of that value alone they are that value. *)
Lemma py_min_returns (l : list float) (cur : float) :
  exists lo, py_min (l ++ [cur]) = Ok lo /\ (l = [] -> lo = cur).
Proof.
  destruct l as [|x l]; cbn.
  - eauto.
  - eexists. split; [reflexivity|discriminate].
Qed.

Lemma py_max_returns (l : list float) (cur : float) :
  exists hi, py_max (l ++ [cur]) = Ok hi /\ (l = [] -> hi = cur).
Proof.
  destruct l as [|x l]; cbn.
  - eauto.
  - eexists. split; [reflexivity|discriminate].
Qed.

Lemma bounds_axis_returns (points : list Vector) (mins maxs : list float)
    (index : nat) (cur cur' : float) :
  (index < 3)%nat -> mins !! index = Some cur -> maxs !! index = Some cur' ->
  exists lo hi,
    bounds_axis points (mins, maxs) index
    = Ok (<[index := lo]> mins, <[index := hi]> maxs)
    /\ (points = [] -> lo = cur /\ hi = cur').
Proof.
  intros Hi Hcur Hcur'. unfold bounds_axis, py_index.
  rewrite (mapM_vec_index points index Hi), Hcur, Hcur', !bind_Ok.
  destruct (py_min_returns (axis index <$> points) cur) as (lo & -> & Hlo).
  rewrite ?bind_Ok. cbv zeta. rewrite ?bind_Ok.
  destruct (py_max_returns (axis index <$> points) cur') as (hi & -> & Hhi).
  exists lo, hi. split; [reflexivity|].
  intros ->. split; [now apply Hlo|now apply Hhi].
Qed.

(** One object, on any state of three minima and three maxima. *)
Lemma bounds_object_returns (a b c a' b' c' : float) (obj : BObject) :
  exists x y z x' y' z',
    bounds_object ([a; b; c], [a'; b'; c']) obj = Ok ([x; y; z], [x'; y'; z'])
    /\ (ob_type obj = "CAMERA" \/ bound_box obj = [] ->
        [x; y; z] = [a; b; c] /\ [x'; y'; z'] = [a'; b'; c']).
Proof.
  destruct (decide (ob_type obj = "CAMERA")) as [Hc|Hc].
  - exists a, b, c, a', b', c'. split; [now apply bounds_object_skip|auto].
  - unfold bounds_object. rewrite bool_decide_eq_false_2.
    2:{ intros Hin. apply list_elem_of_singleton in Hin. contradiction. }
    fold (world_corners obj). cbn [seq foldM].
    destruct (bounds_axis_returns (world_corners obj) [a; b; c] [a'; b'; c'] 0 a a')
      as (x & x' & -> & Hx); [lia|reflexivity|reflexivity|].
    rewrite bind_Ok. cbn [insert list_insert].
    destruct (bounds_axis_returns (world_corners obj) [x; b; c] [x'; b'; c'] 1 b b')
      as (y & y' & -> & Hy); [lia|reflexivity|reflexivity|].
    rewrite bind_Ok. cbn [insert list_insert].
    destruct (bounds_axis_returns (world_corners obj) [x; y; c] [x'; y'; c'] 2 c c')
      as (z & z' & -> & Hz); [lia|reflexivity|reflexivity|].
    rewrite bind_Ok. cbn [insert list_insert].
    exists x, y, z, x', y', z'. split; [reflexivity|].
    intros [Hcam|Hbox]; [contradiction|].
    assert (Hno : world_corners obj = []).
    { unfold world_corners. now rewrite Hbox. }
    destruct (Hx Hno) as [-> ->]. destruct (Hy Hno) as [-> ->].
    destruct (Hz Hno) as [-> ->]. auto.
Qed.

Lemma bounds_loop_returns (objects : list BObject) :
  forall a b c a' b' c' : float,
  exists x y z x' y' z',
    foldM bounds_object objects ([a; b; c], [a'; b'; c'])
    = Ok ([x; y; z], [x'; y'; z'])
    /\ foldM bounds_object (filter (fun o => ob_type o <> "CAMERA") objects)
             ([a; b; c], [a'; b'; c'])
       = Ok ([x; y; z], [x'; y'; z'])
    /\ (Forall (fun o => ob_type o = "CAMERA" \/ bound_box o = []) objects ->
        [x; y; z] = [a; b; c] /\ [x'; y'; z'] = [a'; b'; c']).
Proof.
  induction objects as [|obj objects IH]; intros a b c a' b' c'.
  - exists a, b, c, a', b', c'. cbn. auto.
  - cbn [foldM]. rewrite filter_cons.
    destruct (bounds_object_returns a b c a' b' c' obj)
      as (x & y & z & x' & y' & z' & Hrun & Hsame).
    destruct (IH x y z x' y' z') as (p & q & r & p' & q' & r' & Hrest & Hfilt & Hs).
    exists p, q, r, p', q', r'. rewrite Hrun, bind_Ok. split; [exact Hrest|].
    split.
    + destruct (decide (ob_type obj <> "CAMERA")) as [Hc|Hc].
      * cbn [foldM]. now rewrite Hrun, bind_Ok.
      * destruct Hsame as [E1 E2]; [left; now destruct (decide (ob_type obj = "CAMERA"))|].
        now rewrite <- E1, <- E2.
    + intros Hall. apply Forall_cons in Hall as [Hobj Hall].
      destruct (Hsame Hobj) as [E1 E2]. injection E1 as -> -> ->.
      injection E2 as -> -> ->. now apply Hs.
Qed.


(** X10.  [calculate_world_bounds] never raises, whatever the floats are.
    Cameras do not count: the result is that of the scene without them.
    When no object other than a camera has a bounding-box corner, as in an
    empty scene, the result is the pair of seeds, a box whose minimum
    1e38 lies above its maximum -1e38. *)
Theorem calculate_world_bounds_total (objects : list BObject) :
  exists vmin vmax,
    calculate_world_bounds objects = Ok (vmin, vmax)
    /\ calculate_world_bounds (filter (fun o => ob_type o <> "CAMERA") objects)
       = Ok (vmin, vmax)
    /\ (Forall (fun o => ob_type o = "CAMERA" \/ bound_box o = []) objects ->
        vmin = mkVector lit_1e38 lit_1e38 lit_1e38
        /\ vmax = mkVector (float_neg lit_1e38) (float_neg lit_1e38)
                           (float_neg lit_1e38)).
Proof.
  destruct (bounds_loop_returns objects lit_1e38 lit_1e38 lit_1e38
              (float_neg lit_1e38) (float_neg lit_1e38) (float_neg lit_1e38))
    as (x & y & z & x' & y' & z' & Hrun & Hfilt & Hseed).
  exists (mkVector x y z), (mkVector x' y' z').
  unfold calculate_world_bounds. rewrite Hrun, Hfilt.
  split; [reflexivity|]. split; [reflexivity|].
  intros Hall. destruct (Hseed Hall) as [E1 E2].
  injection E1 as -> -> ->. injection E2 as -> -> ->. auto.
Qed.



Section BoundsOrder.
Context {O : PyFloatOrder F}.






End BoundsOrder.

(** ** Meshes left behind by a failed export *)

(** A loop in [M] that raises does so in the body of one of its items,
    entered in a world that has what the bodies keep when they return. *)
Lemma foldM_raise_at {A St} (f : St -> A -> M St) (P : world -> Prop)
    (l : list A) :
  (forall s a w w' s', P w -> f s a w = (w', Ok s') -> P w') ->
  forall s w w' e,
    P w -> foldM f l s w = (w', Raise e) ->
    exists s0 a w0, a ∈ l /\ P w0 /\ f s0 a w0 = (w', Raise e).
Proof.
  intros Hstep. induction l as [|a l IH]; intros s w w' e HP Hrun;
    cbn [foldM] in Hrun; [discriminate|].
  unfold_monad. destruct (f s a w) as [w1 [s1|e1]] eqn:Hf.
  - destruct (IH s1 w1 w' e (Hstep _ _ _ _ _ HP Hf) Hrun)
      as (s0 & a0 & w0 & Hin & HP0 & Hf0).
    exists s0, a0, w0. split; [now right|auto].
  - injection Hrun as <- <-. exists s, a, w. split; [left|auto].
Qed.

Lemma build_materialMap_keeps_meshes (ms : list (option BMaterial)) (w : world) :
  data_meshes (build_materialMap ms w).1 = data_meshes w
  /\ mesh_serial (build_materialMap ms w).1 = mesh_serial w.
Proof.
  unfold build_materialMap.
  apply (foldM_keeps _ (fun w1 => data_meshes w1 = data_meshes w
                                  /\ mesh_serial w1 = mesh_serial w)); [|auto].
  intros s m w1 HP. unfold_monad.
  destruct (material_name m); simpl; [|assumption].
  destruct m as [m|]; simpl; [|assumption].
  destruct (create_material m); simpl; assumption.
Qed.

Lemma number_materials_keeps_meshes (materialMap : gmap string ref)
    (ms : list (option BMaterial)) (w : world) :
  data_meshes (number_materials materialMap ms w).1 = data_meshes w
  /\ mesh_serial (number_materials materialMap ms w).1 = mesh_serial w.
Proof.
  unfold number_materials.
  apply (foldM_keeps _ (fun w1 => data_meshes w1 = data_meshes w
                                  /\ mesh_serial w1 = mesh_serial w)); [|auto].
  intros s [i bMat] w1 HP. unfold_monad.
  destruct (material_name bMat); simpl; [|assumption].
  destruct (py_getitem materialMap _); simpl; assumption.
Qed.

(** The loop over the mesh objects leaves at most the mesh of the object
    it failed on. *)
Lemma build_renderNodes_leak (materialMap : gmap string ref)
    (options : gmap string bool) (objs : list BObject) (w w' : world) (e : exn) :
  Forall (fun id => (id < mesh_serial w)%nat) (data_meshes w) ->
  build_renderNodes materialMap options objs w = (w', Raise e) ->
  data_meshes w' = data_meshes w
  \/ exists id, (mesh_serial w <= id)%nat /\ data_meshes w' = data_meshes w ++ [id].
Proof.
  intros Hfresh Hrun. unfold build_renderNodes in Hrun.
  apply (foldM_raise_at _ (fun w1 => data_meshes w1 = data_meshes w
                                     /\ (mesh_serial w <= mesh_serial w1)%nat))
    in Hrun as (s0 & obj & w0 & _ & [Hd Hs] & Hstep); [| |auto].
  - unfold_monad.
    destruct (py_index _ _); [|injection Hstep as <- _; now left].
    destruct (material_name _); [|injection Hstep as <- _; now left].
    destruct (py_getitem materialMap _); [|injection Hstep as <- _; now left].
    rewrite create_rendernode_unfold in Hstep. cbv zeta in Hstep.
    destruct (tessface_uv_active _).
    + destruct (flatten _ _) as [[vs idx]|]; [discriminate|].
      injection Hstep as <- _. right. exists (mesh_serial w0).
      split; [assumption|]. cbn [data_meshes]. now rewrite Hd.
    + injection Hstep as <- _. right. exists (mesh_serial w0).
      split; [assumption|]. cbn [data_meshes]. now rewrite Hd.
  - intros s obj w0 w1 s' [Hd Hs] Hstep. unfold_monad.
    destruct (py_index _ _); [|discriminate].
    destruct (material_name _); [|discriminate].
    destruct (py_getitem materialMap _); [|discriminate].
    rewrite create_rendernode_unfold in Hstep. cbv zeta in Hstep.
    destruct (tessface_uv_active _); [|discriminate].
    destruct (flatten _ _) as [[vs idx]|]; [|discriminate].
    injection Hstep as <- _. cbn [data_meshes mesh_serial].
    split; [|lia]. rewrite filter_fresh; [assumption|].
    rewrite Hd. eapply Forall_impl; [exact Hfresh|]. simpl. lia.
Qed.

(** X13.  An export that raises leaves at most one of its transient
    meshes in the mesh data: the mesh of the object whose render node
    could not be built.  The meshes of the objects before it have been
    removed. *)
Theorem write_file_leaks_at_most_one (scene : list BObject) (filename : string)
    (options : gmap string bool) (w w' : world) (e : exn) :
  Forall (fun id => (id < mesh_serial w)%nat) (data_meshes w) ->
  write_file scene filename options w = (w', Raise e) ->
  data_meshes w' = data_meshes w
  \/ exists id, (mesh_serial w <= id)%nat /\ data_meshes w' = data_meshes w ++ [id].
Proof.
  unfold write_file. set (objs := filter _ scene). intros Hfresh. unfold_monad.
  destruct (first_materials objs) as [ms|]; [|intros [= <- _]; now left].
  pose proof (build_materialMap_keeps_meshes ms w) as [Hd1 Hs1].
  destruct (build_materialMap ms w) as [w1 [mm|]]; simpl in Hd1, Hs1;
    [|intros [= <- _]; now left].
  pose proof (number_materials_keeps_meshes mm ms w1) as [Hd2 Hs2].
  destruct (number_materials mm ms w1) as [w2 [refs|]]; simpl in Hd2, Hs2;
    [|intros [= <- _]; left; congruence].
  assert (Hfresh2 : Forall (fun id => (id < mesh_serial w2)%nat) (data_meshes w2)).
  { rewrite Hd2, Hd1, Hs2, Hs1. exact Hfresh. }
  destruct (build_renderNodes mm options objs w2) as [w3 [rns|e3]] eqn:Hrn.
  - apply build_renderNodes_meshes in Hrn as [_ Hd3]; [|exact Hfresh2].
    pose proof (build_nodes_keeps rns w3) as H4.
    destruct (build_nodes rns w3) as [w4 [[ns out]|]]; simpl in H4; subst w4;
      [|intros [= <- _]; left; congruence].
    destruct (calculate_world_bounds scene) as [[bmin bmax]|];
      [|intros [= <- _]; left; congruence].
    pose proof (mapM_deref_keeps refs w3) as H5.
    destruct (mapM deref refs w3) as [w5 [mats|]]; simpl in H5; subst w5;
      [|intros [= <- _]; left; congruence].
    discriminate.
  - intros [= <- _].
    apply build_renderNodes_leak in Hrn as [Hd3|(id & Hid & Hd3)];
      [| |exact Hfresh2].
    + left. congruence.
    + right. exists id. split; [lia|]. congruence.
Qed.

(** ** Faces and UV entries that have no partner *)

(** X14.  The flattener pairs the faces with the entries of the UV layer
    in order and stops at the shorter of the two: faces beyond the UV
    data, and UV entries beyond the faces, are skipped without an
    error.  The buffers are those of the mesh cut to the paired faces. *)
Theorem flatten_ignores_unpaired (mesh : Mesh) (uv_tex : list MeshTextureFace) :
  let n := Nat.min (length (tessfaces mesh)) (length uv_tex) in
  flatten mesh uv_tex
  = flatten {| mesh_vertices := mesh_vertices mesh;
               tessfaces := take n (tessfaces mesh);
               tessface_uv_active := tessface_uv_active mesh |}
            (take n uv_tex).
Proof.
  intros n. unfold flatten. cbn [tessfaces].
  rewrite <- zip_with_take.
  rewrite (take_ge (zip (tessfaces mesh) uv_tex)); [reflexivity|].
  rewrite length_zip_with. reflexivity.
Qed.

(** ** When the export returns *)















(** ** What a raised exception tells *)






(** ** The contents of the written material table *)

Lemma foldM_split {A St} (f : St -> A -> M St)
    (Inv : list A -> St -> world -> Prop) (l : list A) :
  (forall pre a rest s w w' s',
      l = pre ++ a :: rest -> Inv pre s w -> f s a w = (w', Ok s') ->
      Inv (pre ++ [a]) s' w') ->
  forall s w w' s', Inv [] s w -> foldM f l s w = (w', Ok s') -> Inv l s' w'.
Proof.
  intros Hstep.
  assert (Hgen : forall rest pre s w w' s',
             l = pre ++ rest -> Inv pre s w -> foldM f rest s w = (w', Ok s') ->
             Inv l s' w').
  { induction rest as [|a rest IH]; intros pre s w w' s' Hl Hinv Hrun;
      cbn [foldM] in Hrun.
    - injection Hrun as <- <-. rewrite app_nil_r in Hl. now subst l.
    - unfold_monad. destruct (f s a w) as [w1 [s1|e]] eqn:Hf; [|discriminate].
      apply (IH (pre ++ [a]) s1 w1); [|eauto|assumption].
      now rewrite <- app_assoc. }
  intros s w w' s' Hinv Hrun. now apply (Hgen l [] s w).
Qed.

Lemma enumerate_split {A} (l : list A) (pre rest : list (nat * A)) (i : nat) (a : A) :
  enumerate l = pre ++ (i, a) :: rest -> i = length pre /\ l !! i = Some a.
Proof.
  intros Hl.
  assert (Hi : enumerate l !! length pre = Some (i, a))
    by (rewrite Hl; now apply list_lookup_middle).
  unfold enumerate in Hi.
  apply lookup_zip_with_Some in Hi as (x & y & Hxy & Hx & Hy).
  injection Hxy as -> ->. apply lookup_seq in Hx as [-> _]. auto.
Qed.

Lemma build_materialMap_content (ms : list (option BMaterial)) (w w1 : world)
    (materialMap : gmap string ref) :
  build_materialMap ms w = (w1, Ok materialMap) ->
  forall nm r, materialMap !! nm = Some r ->
    exists j src mat,
      r = (length (heap w) + j)%nat /\ last_named ms nm j src
      /\ create_material src = Ok mat /\ heap w1 !! r = Some mat.
Proof.
  intros Hrun. unfold build_materialMap in Hrun.
  apply (foldM_prefix _ (fun pre (mm : gmap string ref) w1 =>
           length (heap w1) = (length (heap w) + length pre)%nat
           /\ forall nm r, mm !! nm = Some r ->
                exists j src mat,
                  r = (length (heap w) + j)%nat /\ last_named pre nm j src
                  /\ create_material src = Ok mat /\ heap w1 !! r = Some mat)
           ms) with (pre := []) in Hrun.
  - exact (proj2 Hrun).
  - clear. intros pre m mm w0 w' mm' (Hlen & Hmap) Hstep. unfold_monad.
    destruct m as [src|]; [|discriminate]. simpl in Hstep.
    destruct (create_material src) as [mat|] eqn:Hmat; [|discriminate].
    simpl in Hstep. injection Hstep as <- <-. simpl.
    split; [rewrite !length_app; simpl; lia|].
    intros nm r Hr. destruct (decide (bmat_name src = nm)) as [<-|Hne].
    + rewrite lookup_insert_eq in Hr. injection Hr as <-.
      exists (length pre), src, mat. split; [exact Hlen|]. split.
      * split; [now apply list_lookup_middle|]. split; [reflexivity|].
        intros j' src' Hlt Hj'. apply lookup_lt_Some in Hj'.
        rewrite length_app in Hj'. simpl in Hj'. lia.
      * split; [exact Hmat|]. now apply list_lookup_middle.
    + rewrite lookup_insert_ne in Hr by assumption.
      destruct (Hmap nm r Hr) as (j & src0 & mat0 & -> & (Hj & Hnm & Hlast) & Hc & Hh).
      exists j, src0, mat0. split; [reflexivity|]. split.
      * split; [now apply lookup_app_l_Some|]. split; [exact Hnm|].
        intros j' src' Hlt Hj'.
        apply lookup_app_Some in Hj' as [Hj'|[_ Hj']]; [eauto|].
        destruct (j' - length pre)%nat; [|discriminate].
        injection Hj' as <-. exact Hne.
      * split; [exact Hc|]. now apply lookup_app_l_Some.
  - split; [simpl; lia|].
    intros nm r Hr. rewrite lookup_empty in Hr. discriminate.
Qed.

Lemma number_materials_content (materialMap : gmap string ref)
    (ms : list (option BMaterial)) (base : nat) (w1 w2 : world) (refs : list ref) :
  (forall nm r, materialMap !! nm = Some r ->
     exists j src mat,
       r = (base + j)%nat /\ last_named ms nm j src
       /\ create_material src = Ok mat /\ heap w1 !! r = Some mat) ->
  number_materials materialMap ms w1 = (w2, Ok refs) ->
  forall nm r, materialMap !! nm = Some r ->
    exists j src mat,
      last_named ms nm j src /\ create_material src = Ok mat
      /\ heap w2 !! r = Some (set_index j mat).
Proof.
  intros Hcontent Hrun. unfold number_materials in Hrun.
  set (Inv := fun (pre : list (nat * option BMaterial)) (_ : list ref) (w : world) =>
           forall nm r, materialMap !! nm = Some r ->
             exists j src mat,
               r = (base + j)%nat /\ last_named ms nm j src
               /\ create_material src = Ok mat
               /\ exists cur, heap w !! r = Some cur
                    /\ (forall k, set_index k cur = set_index k mat)
                    /\ ((j < length pre)%nat -> cur = set_index j mat)).
  assert (Hend : Inv (enumerate ms) refs w2);
    [eapply (foldM_split _ Inv); [| |exact Hrun]; unfold Inv; clear Inv|].
  3: { intros nm r Hr.
    destruct (Hend nm r Hr)
      as (j & src & mat & _ & Hlast & Hc & cur & Hcur & _ & Hdone).
    exists j, src, mat. split; [exact Hlast|]. split; [exact Hc|].
    unfold ref in *. rewrite Hcur, Hdone; [reflexivity|].
    destruct Hlast as (Hj & _). apply lookup_lt_Some in Hj.
    unfold enumerate. rewrite length_zip_with, length_seq. lia. }
  - clear Hrun Hcontent. intros pre [i a] rest refs0 w w' refs' Hsplit Hinv Hstep.
    apply enumerate_split in Hsplit as [-> Ha].
    unfold_monad. destruct a as [srca|]; [|discriminate]. simpl in Hstep.
    unfold py_getitem in Hstep.
    destruct (materialMap !! bmat_name srca) as [ra|] eqn:Hra; [|discriminate].
    simpl in Hstep. injection Hstep as <- _. cbn [heap].
    intros nm r Hr.
    destruct (Hinv nm r Hr)
      as (j & src & mat & -> & Hlast & Hc & cur & Hcur & Hsame & Hdone).
    exists j, src, mat. split; [reflexivity|]. split; [exact Hlast|].
    split; [exact Hc|].
    destruct Hlast as (Hj & Hnm & Hlater).
    destruct (decide (nm = bmat_name srca)) as [->|Hne].
    + unfold ref in *. rewrite Hra in Hr. injection Hr as ->.
      exists (set_index (length pre) cur).
      rewrite list_lookup_alter_eq, Hcur. split; [reflexivity|].
      split; [intros k; exact (Hsame k)|].
      rewrite length_app. simpl. intros Hlt.
      destruct (decide (j < length pre)%nat) as [Hbefore|Hnot].
      * exfalso. exact (Hlater _ _ Hbefore Ha eq_refl).
      * assert (j = length pre) by lia. subst j. exact (Hsame (length pre)).
    + destruct (Hinv _ _ Hra) as (ja & srca' & _ & -> & (Hja & Hnma & _) & _).
      assert (Hjs : j <> ja) by (intros ->; congruence).
      exists cur. unfold ref in *.
      rewrite list_lookup_alter_ne by lia. split; [exact Hcur|].
      split; [exact Hsame|]. rewrite length_app. simpl. intros Hlt.
      apply Hdone. destruct (decide (j = length pre)) as [->|]; [|lia].
      congruence.
  - intros nm r Hr.
    destruct (Hcontent nm r Hr) as (j & src & mat & -> & Hlast & Hc & Hh).
    exists j, src, mat. split; [reflexivity|]. split; [exact Hlast|].
    split; [exact Hc|]. exists mat. split; [exact Hh|].
    split; [reflexivity|]. simpl. lia.
Qed.

(** X17.  The contents of the written material table.  The table has one
    entry for each mesh object, in the order of the scene.  The entry of
    an object whose first material is named [n] is the Material that
    [create_material] builds from the last first-slot material named [n]
    in the scene, carrying as its index the position of the last mesh
    object that uses this name. *)
Theorem written_material_table (scene : list BObject) (filename : string)
    (options : gmap string bool) (w w' : world) :
  write_file scene filename options w = (w', Ok tt) ->
  exists file : EDMFile,
    written w' = written w ++ [file]
    /\ forall (i : nat) (obj : BObject) (src : BMaterial),
        filter (fun x => ob_type x = "MESH") scene !! i = Some obj ->
        material_slots obj !! 0%nat = Some (Some src) ->
        exists (j : nat) (last : BMaterial) (mat : Material),
          (i <= j)%nat
          /\ last_use (filter (fun x => ob_type x = "MESH") scene)
                      (bmat_name src) j last
          /\ create_material last = Ok mat
          /\ materials (root file) !! i = Some (set_index j mat).
Proof.
  unfold write_file. set (objs := filter _ scene). intros Hrun. unfold_monad.
  destruct (first_materials objs) as [ms|] eqn:Hms; [|discriminate].
  apply first_materials_Forall2 in Hms.
  pose proof (build_materialMap_keeps ms w) as Hf1.
  destruct (build_materialMap ms w) as [w1 [mm|]] eqn:Hmm; [|discriminate].
  pose proof (build_materialMap_content _ _ _ _ Hmm) as Hcontent.
  apply build_materialMap_spec in Hmm as (_ & _ & Hnames).
  pose proof (number_materials_keeps mm ms w1) as Hf2.
  destruct (number_materials mm ms w1) as [w2 [refs|]] eqn:Hnum; [|discriminate].
  pose proof (number_materials_content _ _ _ _ _ _ Hcontent Hnum) as Hfinal.
  apply number_materials_spec in Hnum as (_ & _ & _ & Hentries); [|exact Hnames].
  pose proof (build_renderNodes_keeps mm options objs w2) as Hf3.
  destruct (build_renderNodes mm options objs w2) as [w3 [rns|]] eqn:Hrn;
    [|discriminate].
  simpl in Hf1, Hf2, Hf3.
  apply build_renderNodes_spec in Hrn as [Hheap _].
  pose proof (build_nodes_keeps rns w3) as Hk4.
  destruct (build_nodes rns w3) as [w4 [[ns out]|]] eqn:Hbn; [|discriminate].
  simpl in Hk4. subst w4.
  destruct (calculate_world_bounds scene) as [[bmin bmax]|]; [|discriminate].
  pose proof (mapM_deref_keeps refs w3) as Hk5.
  destruct (mapM deref refs w3) as [w5 [mats|]] eqn:Hd; [|discriminate].
  simpl in Hk5. subst w5. apply mapM_deref_Forall2 in Hd.
  unfold file_do in Hrun. simpl in Hrun. injection Hrun as <-.
  eexists. split.
  { unfold written. cbn [files]. rewrite !omap_app. cbn [omap list_omap].
    rewrite !app_nil_r, Hf3, Hf2, Hf1. reflexivity. }
  cbn [root materials]. intros i obj src Hi Hsrc.
  destruct (Forall2_lookup_l _ _ _ _ _ Hms Hi) as (m & Hmi & Hslot).
  assert (m = Some src) by congruence. subst m.
  destruct (Forall2_lookup_l _ _ _ _ _ Hentries Hmi) as (r & Hri & src' & Heq & Hr).
  injection Heq as <-.
  destruct (Hfinal _ _ Hr) as (j & last & mat & (Hj & Hnm & Hlater) & Hc & Hh).
  destruct (Forall2_lookup_l _ _ _ _ _ Hd Hri) as (entry & Hentry & Hderef).
  rewrite Hheap, Hh in Hderef. injection Hderef as <-.
  exists j, last, mat. split.
  { destruct (decide (i <= j)%nat) as [|Hgt]; [assumption|].
    exfalso. apply (Hlater i src); [lia|exact Hmi|reflexivity]. }
  split; [|split; [exact Hc|exact Hentry]].
  split.
  { destruct (Forall2_lookup_r _ _ _ _ _ Hms Hj) as (objj & Hobjj & Hslotj).
    exists objj. auto. }
  split; [exact Hnm|].
  intros j' obj' src' Hlt Hobj' Hslot'.
  destruct (Forall2_lookup_l _ _ _ _ _ Hms Hobj') as (m' & Hm' & Hs').
  apply (Hlater j' src' Hlt). congruence.
Qed.

(** X18.  The bounding box of the written file is the world bounding box
    of the whole scene, mesh objects or not, converted by
    [vector_to_edm]. *)
Theorem written_bounding_box (scene : list BObject) (filename : string)
    (options : gmap string bool) (w w' : world) :
  write_file scene filename options w = (w', Ok tt) ->
  exists (file : EDMFile) (vmin vmax : Vector),
    written w' = written w ++ [file]
    /\ calculate_world_bounds scene = Ok (vmin, vmax)
    /\ boundingBoxMin (root file) = vector_to_edm vmin
    /\ boundingBoxMax (root file) = vector_to_edm vmax.
Proof.
  unfold write_file. set (objs := filter _ scene). intros Hrun. unfold_monad.
  destruct (first_materials objs) as [ms|] eqn:Hms; [|discriminate].
  pose proof (build_materialMap_keeps ms w) as Hf1.
  destruct (build_materialMap ms w) as [w1 [mm|]] eqn:Hmm; [|discriminate].
  pose proof (number_materials_keeps mm ms w1) as Hf2.
  destruct (number_materials mm ms w1) as [w2 [refs|]] eqn:Hnum; [|discriminate].
  pose proof (build_renderNodes_keeps mm options objs w2) as Hf3.
  destruct (build_renderNodes mm options objs w2) as [w3 [rns|]] eqn:Hrn;
    [|discriminate].
  simpl in Hf1, Hf2, Hf3.
  pose proof (build_nodes_keeps rns w3) as Hk4.
  destruct (build_nodes rns w3) as [w4 [[ns out]|]] eqn:Hbn; [|discriminate].
  simpl in Hk4. subst w4.
  destruct (calculate_world_bounds scene) as [[bmin bmax]|] eqn:Hb; [|discriminate].
  pose proof (mapM_deref_keeps refs w3) as Hk5.
  destruct (mapM deref refs w3) as [w5 [mats|]] eqn:Hd; [|discriminate].
  simpl in Hk5. subst w5.
  unfold file_do in Hrun. simpl in Hrun. injection Hrun as <-.
  eexists. exists bmin, bmax. split.
  { unfold written. cbn [files]. rewrite !omap_app. cbn [omap list_omap].
    rewrite !app_nil_r, Hf3, Hf2, Hf1. reflexivity. }
  split; [reflexivity|]. split; reflexivity.
Qed.

End WriterFacts.

(** C8.  The name [create_texture] gives a texture whose file is
    [//textures/wood], a base name without any extension, is [woo]: the
    last character is lost, where the claim has the full base name kept. *)
Theorem create_texture_dotless_loses_last_char :
  os_path_basename (tex_filepath dotless_slot) = "wood"
  /\ tex_name <$> create_texture dotless_slot = Ok "woo".
Proof. split; reflexivity. Qed.

(** * The concrete host: examples and counterexamples *)

#[global] Instance Zfloat_order : PyFloatOrder Zfloat.
Proof.
  split; simpl.
  - intros a. apply Z.ltb_irrefl.
  - intros a b c Hab Hbc. apply Z.ltb_lt in Hab, Hbc. apply Z.ltb_lt. lia.
  - intros a b Hab Hba. apply Z.ltb_ge in Hab, Hba. lia.
Qed.

(** C1.  Two mesh objects share the source material [Wood].  The file
    [write_file] writes has a material table of two entries (the one
    Material object, twice), both carrying the index 1, none the index 0;
    the two render nodes resolve to the index 1. *)
Theorem shared_material_table_not_deduplicated :
  let run := write_file shared_scene "out.edm" ∅ world0 in
  run.2 = Ok tt
  /\ (fun f => mat_name <$> materials (root f)) <$> written run.1
     = [["Wood"; "Wood"]]
  /\ (fun f => mat_index <$> materials (root f)) <$> written run.1
     = [[Some 1%nat; Some 1%nat]]
  /\ (fun f => rn_material <$> renderNodes f) <$> written run.1
     = [[1%nat; 1%nat]].
Proof. cbv zeta. repeat split; vm_compute; reflexivity. Qed.

(** A texture file with extensions keeps its base name up to the first
    dot. *)
Lemma create_texture_name_dotted_witness :
  use_map_color_diffuse (slot_of "//textures/wood.dds.png" true) = true
  /\ String.index 0 "." (os_path_basename "//textures/wood.dds.png") = Some 4%nat
  /\ tex_name <$> create_texture (slot_of "//textures/wood.dds.png" true) = Ok "wood".
Proof.
  split; [reflexivity|]. split; [reflexivity|].
  exact (create_texture_name_dotted (slot_of "//textures/wood.dds.png" true) 4
           eq_refl eq_refl).
Defined.

(** The flattener on the square split into two triangles. *)
Lemma flatten_triangulates_witness :
  Forall (face_ok tris_mesh) (zip (tessfaces tris_mesh) [square_uv; square_uv])
  /\ exists vs idx,
      flatten tris_mesh [square_uv; square_uv] = Ok (vs, idx)
      /\ forall (k : nat) (face : MeshTessFace) (uvFace : MeshTextureFace),
          zip (tessfaces tris_mesh) [square_uv; square_uv] !! k = Some (face, uvFace) ->
          exists vs_before idx_before fresh tri vs_after idx_after,
            foldM (flatten_face tris_mesh)
                  (take k (zip (tessfaces tris_mesh) [square_uv; square_uv])) ([], [])
            = Ok (vs_before, idx_before)
            /\ flatten_face tris_mesh (vs_before, idx_before) (face, uvFace)
               = Ok (vs_before ++ fresh, idx_before ++ tri)
            /\ vs = vs_before ++ fresh ++ vs_after
            /\ idx = idx_before ++ tri ++ idx_after
            /\ length fresh = length (face_vertices face)
            /\ (length (face_vertices face) = 3%nat ->
                tri = [length vs_before; length vs_before + 1;
                       length vs_before + 2]%nat)
            /\ (length (face_vertices face) = 4%nat ->
                tri = [length vs_before; length vs_before + 1;
                       length vs_before + 2; length vs_before + 2;
                       length vs_before + 3; length vs_before]%nat).
Proof.
  assert (H : Forall (face_ok tris_mesh)
                (zip (tessfaces tris_mesh) [square_uv; square_uv])).
  { repeat constructor; simpl; lia. }
  split; [exact H|]. exact (flatten_triangulates tris_mesh _ H).
Defined.

(** The quad yields four vertices and the index buffer 0 1 2 2 3 0. *)
Example flatten_quad :
  snd <$> flatten (quad_mesh true) [square_uv] = Ok [0; 1; 2; 2; 3; 0]%nat.
Proof. reflexivity. Qed.

(** The third vertex of the cube object. *)
Lemma rendernode_vertex_layout_witness :
  let w' := {| data_meshes := []; mesh_serial := 1; heap := []; files := [] |} in
  let vtx := [PFloat 1; PFloat 0; PFloat (-1); PInt 0;
              PFloat 0; PFloat 1; PFloat 0; PFloat 1; PFloat (-1)] in
  let node : BuiltNode :=
    {| rn_name := "Cube"; rn_material := 0%nat; rn_parent := None;
       vertexData :=
         [[PFloat 0; PFloat 0; PFloat 0; PInt 0;
           PFloat 0; PFloat 1; PFloat 0; PFloat 0; PFloat 0];
          [PFloat 1; PFloat 0; PFloat 0; PInt 0;
           PFloat 0; PFloat 1; PFloat 0; PFloat 1; PFloat 0];
          vtx;
          [PFloat 0; PFloat 0; PFloat (-1); PInt 0;
           PFloat 0; PFloat 1; PFloat 0; PFloat 0; PFloat (-1)]];
       indexData := [0; 1; 2; 2; 3; 0]%nat |} in
  create_rendernode cube_object 0%nat ∅ world0 = (w', Ok node)
  /\ vtx ∈ vertexData node
  /\ exists (uv_tex : list MeshTextureFace) (face : MeshTessFace)
            (uvFace : MeshTextureFace),
      let mesh := mesh_transform (matrix_local cube_object)
                    (to_mesh cube_object
                       (default false ((∅ : gmap string bool) !! "apply_modifiers"))) in
      tessface_uv_active mesh = Some uv_tex
      /\ (face, uvFace) ∈ zip (tessfaces mesh) uv_tex
      /\ corner_vertex mesh face uvFace vtx.
Proof.
  intros w' vtx node.
  assert (Hrun : create_rendernode cube_object 0%nat ∅ world0 = (w', Ok node))
    by reflexivity.
  assert (Hin : vtx ∈ vertexData node) by (right; right; left).
  split; [exact Hrun|]. split; [exact Hin|].
  exact (rendernode_vertex_layout cube_object 0%nat ∅ world0 w' node vtx Hrun Hin).
Defined.

(** The node table of three render nodes, two of which have a parent. *)
Lemma node_table_parents_witness :
  Forall (material_numbered numbered_world) parented_nodes
  /\ exists (nodes : list Node) (out : list FinalNode),
      build_nodes parented_nodes numbered_world = (numbered_world, Ok (nodes, out))
      /\ nodes = [""; "Axle"; "Hinge"]
      /\ rn_parent <$> out = [1; 0; 2]%nat.
Proof.
  assert (H : Forall (material_numbered numbered_world) parented_nodes).
  { repeat constructor; eexists _, 0%nat; split; reflexivity. }
  split; [exact H|].
  destruct (node_table_parents parented_nodes numbered_world H)
    as (nodes & out & Hrun & Hnodes & _ & _).
  exists nodes, out. split; [exact Hrun|]. split; [exact Hnodes|].
  assert (E : (build_nodes parented_nodes numbered_world).2 = Ok (nodes, out))
    by now rewrite Hrun.
  vm_compute in E. injection E as _ <-. reflexivity.
Defined.

(** A material with two diffuse textures, alone and in a scene. *)
Lemma diffuse_count_rejected_witness :
  (length (diffuse_slots (texture_slots two_diffuse)) = 0%nat
   \/ (2 <= length (diffuse_slots (texture_slots two_diffuse)))%nat)
  /\ create_material two_diffuse = Raise AssertionError
  /\ exists w' e,
      write_file bad_material_scene "out.edm" ∅ world0 = (w', Raise e)
      /\ files w' = files world0 /\ data_meshes w' = data_meshes world0.
Proof.
  assert (H : length (diffuse_slots (texture_slots two_diffuse)) = 0%nat
              \/ (2 <= length (diffuse_slots (texture_slots two_diffuse)))%nat).
  { right. simpl. lia. }
  split; [exact H|].
  destruct (diffuse_count_rejected_before_output two_diffuse H) as [Hmat Hfile].
  split; [exact Hmat|].
  apply (Hfile bad_material_scene two_diffuse_object).
  - right. left.
  - reflexivity.
  - reflexivity.
Defined.

(** A material without any diffuse texture is rejected as well. *)
Example no_diffuse_rejected : create_material no_diffuse = Raise AssertionError.
Proof. reflexivity. Qed.

(** The uniforms of a material with the mirror in use. *)
Lemma create_material_uniforms_witness :
  exists mat,
    create_material mirror = Ok mat
    /\ dom (mat_uniforms mat)
       = ({[ "specPower"; "specFactor"; "diffuseValue"; "reflectionValue";
             "reflectionBlurring" ]} : gset string)
    /\ mat_uniforms mat !! "reflectionValue" = Some 3
    /\ mat_uniforms mat !! "reflectionBlurring" = Some (1 - 4)
    /\ mat_texture_coordinates_channels mat
       = [0; -1; -1; -1; -1; -1; -1; -1; -1; -1; -1; -1].
Proof.
  destruct (create_material mirror) as [mat|e] eqn:Hrun; [|discriminate Hrun].
  exists mat. split; [reflexivity|].
  destruct (create_material_uniforms mirror mat Hrun)
    as (_ & _ & _ & _ & Hon & Hch).
  destruct (Hon eq_refl) as (Hdom & Hval & Hblur).
  auto.
Defined.

(** The seed 1e38 is what comes out as the minimum when every corner of
    the only object lies beyond it; the minimum of the corners is 2e38. *)
Lemma far_object_minimum_is_the_seed :
  filter (fun o => ob_type o <> "CAMERA") far_scene = [far_object]
  /\ length (bound_box far_object) = 8%nat
  /\ calculate_world_bounds far_scene
     = Ok (mkVector (10 ^ 38) (10 ^ 38) (10 ^ 38),
           mkVector (3 * 10 ^ 38) (3 * 10 ^ 38) (3 * 10 ^ 38))
  /\ is_least (2 * 10 ^ 38) (axis 0 <$> world_corners far_object)
  /\ ~ is_least (10 ^ 38) (axis 0 <$> world_corners far_object).
Proof.
  split; [reflexivity|]. split; [reflexivity|]. split; [reflexivity|]. split.
  - split; [left|]. intros x Hx. apply list_elem_of_In in Hx. simpl in Hx.
    intuition (subst; reflexivity).
  - intros [Hin _]. apply list_elem_of_In in Hin. vm_compute in Hin.
    intuition discriminate.
Qed.

(** The bounds of a scene with one object beside the camera. *)
Lemma world_bounds_extrema_witness :
  PyFloatOrder Zfloat
  /\ exists vmin vmax,
      calculate_world_bounds near_scene = Ok (vmin, vmax)
      /\ vmin = mkVector 4 (-1) (-1) /\ vmax = mkVector 6 1 1
      /\ forall index, (index < 3)%nat ->
          is_least (axis index vmin) (axis index <$> world_corners near_object)
          /\ is_greatest (axis index vmax) (axis index <$> world_corners near_object).
Proof.
  split; [exact Zfloat_order|].
  destruct (world_bounds_extrema near_scene) as (vmin & vmax & Hrun & _ & Hone).
  exists vmin, vmax. split; [exact Hrun|].
  assert (Hv : vmin = mkVector 4 (-1) (-1) /\ vmax = mkVector 6 1 1).
  { vm_compute in Hrun. injection Hrun as <- <-. split; reflexivity. }
  destruct Hv as [Hmin Hmax]. split; [exact Hmin|]. split; [exact Hmax|].
  apply (Hone near_object).
  - reflexivity.
  - reflexivity.
  - repeat constructor.
Defined.

(** Without an active UV layer [create_rendernode] raises after the mesh
    was created, and the mesh stays in the mesh data. *)
Lemma transient_mesh_kept_on_failure :
  create_rendernode uvless_object 0%nat ∅ world0
  = ({| data_meshes := [0%nat]; mesh_serial := 1; heap := []; files := [] |},
     Raise AttributeError).
Proof. reflexivity. Qed.

(** The mesh of the cube object, which has a UV layer, is released. *)
Lemma transient_mesh_released_witness :
  exists w' node,
    create_rendernode cube_object 0%nat ∅ world0 = (w', Ok node)
    /\ mesh_serial w' = S (mesh_serial world0)
    /\ data_meshes w' = filter (fun x => x <> mesh_serial world0) (data_meshes world0)
    /\ mesh_serial world0 ∉ data_meshes w'.
Proof.
  destruct (create_rendernode cube_object 0%nat ∅ world0) as [w' r] eqn:Hrun.
  destruct r as [node|e] eqn:Hr; [|discriminate Hrun].
  exists w', node. split; [reflexivity|].
  destruct (transient_mesh_released_on_return cube_object 0%nat ∅ world0 w'
              (Ok node) Hrun) as (Hserial & Hok & _).
  destruct (Hok node eq_refl) as [Hdata Hgone]. auto.
Defined.

(** A scene whose second mesh object has no material slot. *)
Lemma slotless_mesh_object_witness :
  slotless_object ∈ slotless_scene
  /\ ob_type slotless_object = "MESH" /\ material_slots slotless_object = []
  /\ write_file slotless_scene "out.edm" ∅ world0 = (world0, Raise IndexError).
Proof.
  assert (Hin : slotless_object ∈ slotless_scene) by (right; left).
  split; [exact Hin|]. split; [reflexivity|]. split; [reflexivity|].
  exact (slotless_mesh_object_IndexError slotless_scene slotless_object
           "out.edm" ∅ world0 Hin eq_refl eq_refl).
Defined.

(** ** Runs of the export on the sample scenes *)

(** The export of [shared_scene] returns. *)
Lemma shared_scene_exports :
  write_file shared_scene "out.edm" ∅ world0 = (exported_world, Ok tt).
Proof.
  unfold exported_world.
  assert (H : (write_file shared_scene "out.edm" ∅ world0).2 = Ok tt)
    by (vm_compute; reflexivity).
  destruct (write_file shared_scene "out.edm" ∅ world0) as [w1 r].
  simpl in *. subst r. reflexivity.
Qed.

(** The export of [leaky_scene] raises at its second mesh object. *)
Lemma leaky_scene_raises :
  write_file leaky_scene "out.edm" ∅ world0 = (leaked_world, Raise AttributeError).
Proof.
  unfold leaked_world.
  assert (H : (write_file leaky_scene "out.edm" ∅ world0).2 = Raise AttributeError)
    by (vm_compute; reflexivity).
  destruct (write_file leaky_scene "out.edm" ∅ world0) as [w1 r].
  simpl in *. subst r. reflexivity.
Qed.

Lemma world0_fresh :
  Forall (fun id => (id < mesh_serial world0)%nat) (data_meshes world0).
Proof. constructor. Qed.

(** The tables of the file written for [shared_scene]. *)
Lemma write_file_tables_witness :
  write_file shared_scene "out.edm" ∅ world0 = (exported_world, Ok tt)
  /\ exists file,
      files exported_world
      = files world0 ++ [FileOpen "out.edm"; FileWrite "out.edm" file;
                         FileClose "out.edm"]
      /\ length (materials (root file))
         = length (filter (fun x => ob_type x = "MESH") shared_scene)
      /\ length (renderNodes file)
         = length (filter (fun x => ob_type x = "MESH") shared_scene).
Proof.
  split; [exact shared_scene_exports|].
  exact (write_file_tables shared_scene "out.edm" ∅ world0 exported_world
           shared_scene_exports).
Defined.

(** The failing export of [leaky_scene] wrote nothing. *)
Lemma write_file_raises_before_output_witness :
  write_file leaky_scene "out.edm" ∅ world0 = (leaked_world, Raise AttributeError)
  /\ files leaked_world = files world0.
Proof.
  split; [exact leaky_scene_raises|].
  exact (write_file_raises_before_output leaky_scene "out.edm" ∅ world0
           leaked_world AttributeError leaky_scene_raises).
Defined.

(** What the export of [shared_scene] leaves in the host. *)
Lemma write_file_resources_witness :
  Forall (fun id => (id < mesh_serial world0)%nat) (data_meshes world0)
  /\ write_file shared_scene "out.edm" ∅ world0 = (exported_world, Ok tt)
  /\ data_meshes exported_world = data_meshes world0
  /\ mesh_serial exported_world
     = (mesh_serial world0
        + length (filter (fun x => ob_type x = "MESH") shared_scene))%nat
  /\ length (heap exported_world)
     = (length (heap world0)
        + length (filter (fun x => ob_type x = "MESH") shared_scene))%nat.
Proof.
  split; [exact world0_fresh|]. split; [exact shared_scene_exports|].
  exact (write_file_resources shared_scene "out.edm" ∅ world0 exported_world
           world0_fresh shared_scene_exports).
Defined.

(** The material indices of the file written for [shared_scene]. *)
Lemma material_indices_resolve_witness :
  write_file shared_scene "out.edm" ∅ world0 = (exported_world, Ok tt)
  /\ exists (file : EDMFile) (index_of : string -> nat),
      written exported_world = written world0 ++ [file]
      /\ forall (i : nat) (obj : BObject),
          filter (fun x => ob_type x = "MESH") shared_scene !! i = Some obj ->
          exists (src : BMaterial) (rn : FinalNode) (entry : Material),
            material_slots obj !! 0%nat = Some (Some src)
            /\ renderNodes file !! i = Some rn
            /\ rn_name rn = ob_name obj
            /\ rn_material rn = index_of (bmat_name src)
            /\ materials (root file) !! i = Some entry
            /\ materials (root file) !! rn_material rn = Some entry
            /\ mat_name entry = bmat_name src
            /\ mat_index entry = Some (rn_material rn).
Proof.
  split; [exact shared_scene_exports|].
  exact (material_indices_resolve shared_scene "out.edm" ∅ world0 exported_world
           shared_scene_exports).
Defined.

(** The node table and the render nodes of the file written for
    [shared_scene]. *)
Lemma written_render_nodes_witness :
  write_file shared_scene "out.edm" ∅ world0 = (exported_world, Ok tt)
  /\ exists file : EDMFile,
      written exported_world = written world0 ++ [file]
      /\ nodes file
         = Node_new :: match RenderNode_parent with
                       | Some p =>
                           replicate
                             (length (filter (fun x => ob_type x = "MESH")
                                             shared_scene)) p
                       | None => []
                       end
      /\ forall (i : nat) (obj : BObject),
          filter (fun x => ob_type x = "MESH") shared_scene !! i = Some obj ->
          let mesh := mesh_transform (matrix_local obj)
                        (to_mesh obj
                           (default false
                              ((∅ : gmap string bool) !! "apply_modifiers"))) in
          exists (rn : FinalNode) (uv_tex : list MeshTextureFace),
            renderNodes file !! i = Some rn
            /\ rn_name rn = ob_name obj
            /\ tessface_uv_active mesh = Some uv_tex
            /\ flatten mesh uv_tex = Ok (vertexData rn, indexData rn)
            /\ rn_parent rn = match RenderNode_parent with
                              | Some _ => S i
                              | None => 0%nat
                              end.
Proof.
  split; [exact shared_scene_exports|].
  exact (written_render_nodes shared_scene "out.edm" ∅ world0 exported_world
           shared_scene_exports).
Defined.

(** The name of the texture of a file with two extensions. *)
Lemma texture_name_is_bare_witness :
  let tex := {| tex_index := 0; tex_name := "wood"; tex_matrix := Matrix_new |} in
  create_texture dotted_slot = Ok tex
  /\ String.prefix (tex_name tex) (os_path_basename (tex_filepath dotted_slot)) = true
  /\ ~ has_char "." (tex_name tex)
  /\ ~ has_char "/" (tex_name tex).
Proof.
  intros tex.
  assert (Hrun : create_texture dotted_slot = Ok tex) by reflexivity.
  split; [exact Hrun|].
  exact (texture_name_is_bare dotted_slot tex Hrun).
Defined.


(** The buffers of the render node of the cube. *)
Lemma rendernode_buffers_wellformed_witness :
  create_rendernode cube_object 0%nat ∅ world0 = (cube_world, Ok cube_node)
  /\ let mesh := mesh_transform (matrix_local cube_object)
                   (to_mesh cube_object
                      (default false ((∅ : gmap string bool) !! "apply_modifiers"))) in
     exists uv_tex,
       tessface_uv_active mesh = Some uv_tex
       /\ length (vertexData cube_node)
          = sum_list (corners_of <$> zip (tessfaces mesh) uv_tex)
       /\ length (indexData cube_node)
          = (3 * sum_list (triangles_of <$> zip (tessfaces mesh) uv_tex))%nat
       /\ Forall (fun x => (x < length (vertexData cube_node))%nat)
                 (indexData cube_node)
       /\ Forall (fun vtx => length vtx = 9%nat) (vertexData cube_node)
       /\ rn_name cube_node = ob_name cube_object
       /\ rn_material cube_node = 0%nat.
Proof.
  assert (Hrun : create_rendernode cube_object 0%nat ∅ world0
                 = (cube_world, Ok cube_node)) by reflexivity.
  split; [exact Hrun|].
  exact (rendernode_buffers_wellformed cube_object 0%nat ∅ world0 cube_world
           cube_node Hrun).
Defined.

(** A face of two vertices, and a face of five. *)
Lemma flatten_face_other_sizes_witness :
  (flatten_face (quad_mesh true) ([], []) (edge_face, square_uv) = Raise IndexError)
  /\ exists fresh,
      flatten_face (quad_mesh true) ([], []) (pentagon_face, pentagon_uv)
      = Ok ([] ++ fresh, [] ++ [0; 1; 2; 2; 3; 0]%nat)
      /\ length fresh = 5%nat.
Proof.
  split.
  - apply (proj1 (flatten_face_other_sizes (quad_mesh true) edge_face square_uv [] [])).
    simpl. lia.
  - apply (proj2 (flatten_face_other_sizes (quad_mesh true) pentagon_face
                    pentagon_uv [] [])).
    + simpl. lia.
    + repeat constructor.
    + simpl. lia.
Defined.



(** The failing export of [leaky_scene] leaves the mesh of its second
    object behind. *)
Lemma write_file_leaks_at_most_one_witness :
  Forall (fun id => (id < mesh_serial world0)%nat) (data_meshes world0)
  /\ write_file leaky_scene "out.edm" ∅ world0 = (leaked_world, Raise AttributeError)
  /\ (data_meshes leaked_world = data_meshes world0
      \/ exists id, (mesh_serial world0 <= id)%nat
                    /\ data_meshes leaked_world = data_meshes world0 ++ [id]).
Proof.
  split; [exact world0_fresh|]. split; [exact leaky_scene_raises|].
  exact (write_file_leaks_at_most_one leaky_scene "out.edm" ∅ world0 leaked_world
           AttributeError world0_fresh leaky_scene_raises).
Defined.



(** The material table of the file written for [shared_scene]. *)
Lemma written_material_table_witness :
  write_file shared_scene "out.edm" ∅ world0 = (exported_world, Ok tt)
  /\ exists file : EDMFile,
      written exported_world = written world0 ++ [file]
      /\ forall (i : nat) (obj : BObject) (src : BMaterial),
          filter (fun x => ob_type x = "MESH") shared_scene !! i = Some obj ->
          material_slots obj !! 0%nat = Some (Some src) ->
          exists (j : nat) (last : BMaterial) (mat : Material),
            (i <= j)%nat
            /\ last_use (filter (fun x => ob_type x = "MESH") shared_scene)
                        (bmat_name src) j last
            /\ create_material last = Ok mat
            /\ materials (root file) !! i = Some (set_index j mat).
Proof.
  split; [exact shared_scene_exports|].
  exact (written_material_table shared_scene "out.edm" ∅ world0 exported_world
           shared_scene_exports).
Defined.

(** The bounding box of the file written for [shared_scene]. *)
Lemma written_bounding_box_witness :
  write_file shared_scene "out.edm" ∅ world0 = (exported_world, Ok tt)
  /\ exists (file : EDMFile) (vmin vmax : Vector),
      written exported_world = written world0 ++ [file]
      /\ calculate_world_bounds shared_scene = Ok (vmin, vmax)
      /\ boundingBoxMin (root file) = vector_to_edm vmin
      /\ boundingBoxMax (root file) = vector_to_edm vmax.
Proof.
  split; [exact shared_scene_exports|].
  exact (written_bounding_box shared_scene "out.edm" ∅ world0 exported_world
           shared_scene_exports).
Defined.
